(** * Video summarizer backend: the transcript and analysis pipeline

    A shallow embedding of [backend.py].  A Python [str] is a list of Unicode
    code points; what the interpreter and the third-party packages decide
    (case mapping, the media, caption, speech and language-model providers,
    temporary names) is taken from an environment record, so every theorem
    holds for whatever those answer. *)

From Stdlib Require Import Floats.
From stdpp Require Import gmap strings list sorting.

Open Scope N_scope.

(** A decimal float literal stands for the nearest double, as in Python. *)
Set Warnings "-inexact-float".

(** ** Python strings *)

Abbreviation str := (list N).

(** The code points of a literal. *)
Definition py (s : string) : str :=
  map Ascii.N_of_ascii (String.list_ascii_of_string s).

Definition in_range (lo hi c : N) : bool := (lo <=? c) && (c <=? hi).

Definition is_digit (c : N) : bool := in_range 48 57 c.
Definition is_upper (c : N) : bool := in_range 65 90 c.
Definition is_lower (c : N) : bool := in_range 97 122 c.

(** [s.startswith(p)] and [s.endswith(p)]. *)
Fixpoint startswith (s p : str) {struct p} : bool :=
  match p, s with
  | [], _ => true
  | _ :: _, [] => false
  | a :: p', b :: s' => (a =? b) && startswith s' p'
  end.

Definition endswith (s p : str) : bool := startswith (reverse s) (reverse p).

(** ** Exceptions *)

Inductive exn :=
| ValueError (msg : str)
| HTTPException (status_code : Z) (detail : str)
| LibraryError (msg : str).

Inductive result (A : Type) :=
| Ok (a : A)
| Raise (e : exn).
Arguments Ok {A} a.
Arguments Raise {A} e.

(** ** Identifier extraction *)

Module VideoId.

(** The class [[0-9A-Za-z_-]]. *)
Definition is_id_char (c : N) : bool :=
  is_digit c || is_upper c || is_lower c || (c =? 95) || (c =? 45).

(** [(?:v=|\/)]: what is left of the subject after each alternative that
    matches at its start, in the order the engine tries them. *)
Definition after_marker (s : str) : list str :=
  (if startswith s (py "v=") then [drop 2 s] else [])
  ++ (if startswith s (py "/") then [drop 1 s] else []).

(** [([0-9A-Za-z_-]{11})]: group 1 at the start of [r]. *)
Definition group1 (r : str) : option str :=
  let g := take 11 r in
  if (length g =? 11)%nat && forallb is_id_char g then Some g else None.

(** First alternative whose continuation matches; the trailing [.*]
    matches any rest, the empty one included. *)
Fixpoint first_match (rs : list str) : option str :=
  match rs with
  | [] => None
  | r :: rs' =>
      match group1 r with
      | Some g => Some g
      | None => first_match rs'
      end
  end.

Definition match_at (s : str) : option str := first_match (after_marker s).

(** [re.search]: the leftmost start position at which the pattern matches,
    the end of the subject included. *)
Fixpoint search (s : str) : option str :=
  match match_at s with
  | Some g => Some g
  | None =>
      match s with
      | [] => None
      | _ :: s' => search s'
      end
  end.

Definition extract_video_id (url : str) : result str :=
  match search url with
  | Some g => Ok g
  | None => Raise (ValueError (py "Invalid YouTube URL"))
  end.

End VideoId.
Import VideoId.

(** ** What the interpreter decides about code points

    [str.lower], [str.strip] and the Unicode reading of [\w] come with the
    interpreter, not with the repository. *)

Record Unicode := {
  str_lower : str -> str;
  str_strip : str -> str;
  isalnum : N -> bool
}.

(** The tables restricted to ASCII, for running the model on ASCII text. *)
Definition ascii_lower (s : str) : str :=
  map (fun c => if is_upper c then c + 32 else c) s.

Definition ascii_space (c : N) : bool := in_range 9 13 c || (c =? 32).

Fixpoint lstrip (s : str) : str :=
  match s with
  | c :: s' => if ascii_space c then lstrip s' else s
  | [] => []
  end.

Definition ascii_strip (s : str) : str := reverse (lstrip (reverse (lstrip s))).

Definition ascii_tables : Unicode :=
  {| str_lower := ascii_lower; str_strip := ascii_strip; isalnum := fun _ => false |}.

(** ** Keyword extraction *)

Module Keywords.
Section Keywords.

Variable U : Unicode.

(** The class [[a-zA-Z]] and the class [\w] of a [str] pattern. *)
Definition is_letter (c : N) : bool := is_lower c || is_upper c.

Definition is_word (c : N) : bool :=
  is_letter c || is_digit c || (c =? 95) || isalnum U c.

Definition word_at (o : option N) : bool :=
  match o with
  | Some c => is_word c
  | None => false
  end.

(** [\b] between the character before a position and the one after it;
    outside the subject there is no word character. *)
Definition boundary (before after : option N) : bool :=
  xorb (word_at before) (word_at after).

(** The longest run of [[a-zA-Z]] at the start of [s]. *)
Fixpoint letters (s : str) : str :=
  match s with
  | c :: s' => if is_letter c then c :: letters s' else []
  | [] => []
  end.

(** [[a-zA-Z]{n,}\b] after the repetition has taken [k] letters: the
    engine tries [k] letters and, when no boundary follows, gives one
    letter back, down to [n]. *)
Fixpoint backtrack (n : nat) (prev : option N) (s : str) (k : nat) : option str :=
  if (k <? n)%nat then None
  else
    let before := match last (take k s) with Some c => Some c | None => prev end in
    if boundary before (head (drop k s)) then Some (take k s)
    else
      match k with
      | O => None
      | S k' => backtrack n prev s k'
      end.

(** [\b[a-zA-Z]{n,}\b] at the start of [s], [prev] being the character
    before it. *)
Definition match_word (n : nat) (prev : option N) (s : str) : option str :=
  if boundary prev (head s) then backtrack n prev s (length (letters s))
  else None.

(** [re.findall] with [n >= 1]: scan left to right; after a match the scan
    resumes at its end ([skip] characters of the match are still to be
    passed), otherwise one character further. *)
Fixpoint findall_from (n : nat) (prev : option N) (skip : nat) (s : str) : list str :=
  match skip with
  | S k =>
      match s with
      | [] => []
      | c :: s' => findall_from n (Some c) k s'
      end
  | O =>
      match match_word n prev s with
      | Some w =>
          w :: match s with
               | [] => []
               | c :: s' => findall_from n (Some c) (length w - 1) s'
               end
      | None =>
          match s with
          | [] => []
          | c :: s' => findall_from n (Some c) 0 s'
          end
      end
  end.

Definition findall (n : nat) (s : str) : list str := findall_from n None 0 s.

Definition stop_words : list str :=
  map py ["this"; "that"; "with"; "have"; "will"; "from"; "they"; "been";
          "were"; "said"; "each"; "which"; "their"; "time"; "about"; "would";
          "there"; "could"; "other"; "more"; "very"; "what"; "know"; "just"]%string.

(** [collections.Counter]: one entry per distinct word, in the order the
    words were first seen. *)
Fixpoint counter_add (w : str) (c : list (str * nat)) : list (str * nat) :=
  match c with
  | [] => [(w, 1%nat)]
  | (k, n) :: c' =>
      if bool_decide (k = w) then (k, S n) :: c' else (k, n) :: counter_add w c'
  end.

Definition Counter (ws : list str) : list (str * nat) :=
  foldl (fun c w => counter_add w c) [] ws.

(** [most_common(n)] is [sorted(items, key=count, reverse=True)[:n]], and
    that sort is stable: an entry goes behind every entry whose count is
    not smaller. *)
Fixpoint insert_desc (x : str * nat) (l : list (str * nat)) : list (str * nat) :=
  match l with
  | [] => [x]
  | y :: l' => if (snd y <? snd x)%nat then x :: l else y :: insert_desc x l'
  end.

Definition sorted_desc (l : list (str * nat)) : list (str * nat) :=
  foldl (fun acc x => insert_desc x acc) [] l.

Definition most_common (n : nat) (c : list (str * nat)) : list (str * nat) :=
  take n (sorted_desc c).

Definition filtered_words (words : list str) : list str :=
  filter (fun word => (word ∉ stop_words) /\ (4 < length word)%nat) words.

Definition extract_keywords (text : str) : list str :=
  let words := findall 4 (str_lower U text) in
  let word_freq := Counter (filtered_words words) in
  map fst (most_common 10 word_freq).

(** The extraction of the design note: tokens of five letters or more
    from the start, the same stop words and ranking, no length filter. *)
Definition extract_keywords_simplified (text : str) : list str :=
  let words := findall 5 (str_lower U text) in
  let word_freq := Counter (filter (fun word => word ∉ stop_words) words) in
  map fst (most_common 10 word_freq).

End Keywords.
End Keywords.
Import Keywords.

(** ** Sentiment *)

(** What [SentimentIntensityAnalyzer.polarity_scores] returns: a dict of
    four floats. *)
Module Vader.
Record scores := { neg : float; neu : float; pos : float; compound : float }.
End Vader.

Module Sentiment.

Inductive label := positive_label | negative_label | neutral_label.

Record sentiment_dict := {
  overall : label;
  positive : float;
  negative : float;
  neutral : float;
  compound : float
}.

(** The [if]/[elif]/[else] on [scores['compound']]; [x >= 0.05] is the
    IEEE comparison [0.05 <= x], false on a NaN. *)
Definition overall_of (c : float) : label :=
  if (0.05 <=? c)%float then positive_label
  else if (c <=? -0.05)%float then negative_label
  else neutral_label.

Section Analyzer.

(** The lexicon analyzer, a collaborator. *)
Variable polarity_scores : str -> Vader.scores.

Definition analyze_sentiment (text : str) : sentiment_dict :=
  let scores := polarity_scores text in
  {| overall := overall_of (Vader.compound scores);
     positive := Vader.pos scores;
     negative := Vader.neg scores;
     neutral := Vader.neu scores;
     compound := Vader.compound scores |}.

End Analyzer.

End Sentiment.
Import Sentiment.

(** ** Records of the API *)

Record SummaryRequest := {
  url : option str;
  format : str;
  length_ : str;
  language : str;
  include_sentiment : bool
}.

(** The [metadata] dict: what pytube tells about a video, or the shape the
    upload endpoint builds from the file. *)
Inductive metadata_dict :=
| video_metadata (title author : str) (length views : Z) (thumbnail : str)
    (publish_date : option str)
| file_metadata (title : str) (file_size : nat) (file_type : option str).

Record SummaryResponse := {
  id : str;
  summary : str;
  metadata : metadata_dict;
  transcript : str;
  sentiment : option sentiment_dict;
  keywords : option (list str);
  timestamp : str
}.

Record UploadFile := {
  filename : str;
  content_type : option str;
  content : list N
}.

(** One item of the caption provider's answer. *)
Record caption := { text : str }.

(** What pytube's [YouTube] object holds; [publish_date] already as text. *)
Record pytube_video := {
  yt_title : str;
  yt_author : str;
  yt_length : Z;
  yt_views : Z;
  yt_thumbnail_url : str;
  yt_publish_date : option str
}.

(** ** The world and the collaborators *)

(** Every call that leaves the process or touches the filesystem or the
    store is recorded, oldest first. *)
Inductive event :=
| call_extract_audio_transcript (video_path : str)
| call_get_transcript (video_id : str)
| call_YouTube (video_id : str)
| call_VideoFileClip (video_path : str)
| call_mktemp (path : str)
| call_write_audiofile (audio_path : str)
| call_record (audio_path : str)
| call_recognize_google (audio_path : str)
| call_open_wb (path : str)
| call_remove (path : str)
| call_close (video_path : str)
| call_chain_run (template : str)
| call_append (record_id : str).

Record World := {
  files : gset str;
  summary_storage : list SummaryResponse;
  trace : list event
}.

(** What the collaborators answer, given the world at the time of the call;
    [Raise] is any exception of theirs. *)
Record Env := {
  unicode : Unicode;
  polarity_scores : str -> Vader.scores;
  http_str : Z -> str -> str;
  get_transcript : World -> str -> result (list caption);
  YouTube : World -> str -> result pytube_video;
  VideoFileClip : World -> str -> result bool;
  mktemp : World -> str -> str;
  write_audiofile : World -> str -> str -> result unit;
  record : World -> str -> result unit;
  recognize_google : World -> str -> result str;
  splitext : str -> str * str;
  chain_run : World -> str -> str -> result str;
  uuid4 : World -> str;
  now : World -> str
}.

(** ** State and exceptions *)

Definition M (A : Type) : Type := World -> result A * World.

#[global] Instance M_ret : MRet M := fun A a w => (Ok a, w).

#[global] Instance M_bind : MBind M := fun A B k m w =>
  match m w with
  | (Ok a, w') => k a w'
  | (Raise e, w') => (Raise e, w')
  end.

Definition raise {A} (e : exn) : M A := fun w => (Raise e, w).

(** [try: m except Exception as e: handler e]. *)
Definition try_except {A} (m : M A) (handler : exn -> M A) : M A := fun w =>
  match m w with
  | (Ok a, w') => (Ok a, w')
  | (Raise e, w') => handler e w'
  end.

Definition log (ev : event) : M unit := fun w =>
  (Ok tt, {| files := files w; summary_storage := summary_storage w;
             trace := trace w ++ [ev] |}).

(** Reading the world, and acting on what it is. *)
Definition ask {A} (f : World -> A) : M A := fun w => (Ok (f w), w).

Definition with_world {A} (f : World -> M A) : M A := fun w => f w w.

Definition lift {A} (r : result A) : M A := fun w => (r, w).

(** A call to a collaborator: recorded, then answered from the world. *)
Definition call {A} (ev : event) (answer : World -> result A) : M A :=
  log ev;; with_world (fun w => lift (answer w)).

Definition set_files (f : gset str -> gset str) : M unit := fun w =>
  (Ok tt, {| files := f (files w); summary_storage := summary_storage w;
             trace := trace w |}).

(** [sep.join(parts)]. *)
Fixpoint str_join (sep : str) (parts : list str) : str :=
  match parts with
  | [] => []
  | [p] => p
  | p :: rest => p ++ sep ++ str_join sep rest
  end.

(** [d.get(key, default)] on a dict literal. *)
Fixpoint dict_get (d : list (str * str)) (key default : str) : str :=
  match d with
  | [] => default
  | (k, v) :: d' => if bool_decide (k = key) then v else dict_get d' key default
  end.

(** ** The backend *)

Module Backend.
Section Backend.

Variable E : Env.

(** [str(e)]. *)
Definition str_of (e : exn) : str :=
  match e with
  | ValueError msg => msg
  | LibraryError msg => msg
  | HTTPException status_code detail => http_str E status_code detail
  end.

Definition os_remove (path : str) : M unit :=
  log (call_remove path);;
  with_world (fun w =>
    if bool_decide (path ∈ files w)
    then set_files (fun fs => fs ∖ {[path]})
    else raise (LibraryError (py "[Errno 2] No such file or directory: '"
                              ++ path ++ py "'"))).

Definition get_video_metadata (video_id : str) : M metadata_dict :=
  try_except
    (yt ← call (call_YouTube video_id) (fun w => YouTube E w video_id);
     mret (video_metadata (yt_title yt) (yt_author yt) (yt_length yt)
             (yt_views yt) (yt_thumbnail_url yt) (yt_publish_date yt)))
    (fun e => raise (HTTPException 400 (py "Error fetching metadata: " ++ str_of e))).

Definition extract_audio_transcript (video_path : str) : M str :=
  log (call_extract_audio_transcript video_path);;
  try_except
    (has_audio ← call (call_VideoFileClip video_path)
                   (fun w => VideoFileClip E w video_path);
     audio_path ← ask (fun w => mktemp E w (py ".wav"));
     log (call_mktemp audio_path);;
     (if has_audio : bool
      then call (call_write_audiofile audio_path)
             (fun w => write_audiofile E w video_path audio_path);;
           set_files (fun fs => fs ∪ {[audio_path]})
      else raise (LibraryError
             (py "'NoneType' object has no attribute 'write_audiofile'")));;
     call (call_record audio_path) (fun w => record E w audio_path);;
     transcript ← call (call_recognize_google audio_path)
                    (fun w => recognize_google E w audio_path);
     os_remove audio_path;;
     log (call_close video_path);;
     mret transcript)
    (fun e => raise (HTTPException 400
                       (py "Error extracting transcript: " ++ str_of e))).

Definition extract_youtube_transcript (video_id : str) : M str :=
  try_except
    (transcript_list ← call (call_get_transcript video_id)
                         (fun w => get_transcript E w video_id);
     mret (str_join (py " ") (map text transcript_list)))
    (fun e => extract_audio_transcript
                (py "https://www.youtube.com/watch?v=" ++ video_id)).

Definition format_instructions : list (str * str) :=
  [(py "bullet_points", py "Provide the summary in clear bullet points");
   (py "narrative", py "Write the summary as a flowing narrative story");
   (py "markdown",
    py "Format the summary using markdown with appropriate headings and structure")].

Definition length_instructions : list (str * str) :=
  [(py "short", py "Keep the summary concise, around 100-150 words");
   (py "medium", py "Provide a comprehensive summary of 200-300 words");
   (py "long", py "Create a detailed summary of 400-500 words")].

Definition get_summary_prompt (format_type length language : str) : str :=
  str_join [10]
    [ [];
      py "    Please summarize the following video transcript. ";
      py "    ";
      py "    Format: "
        ++ dict_get format_instructions format_type
             (dict_get format_instructions (py "bullet_points") []);
      py "    Length: "
        ++ dict_get length_instructions length
             (dict_get length_instructions (py "medium") []);
      py "    Language: Please provide the summary in " ++ language;
      py "    ";
      py "    Focus on the main topics, key insights, and important information covered in the video.";
      py "    ";
      py "    Transcript: {transcript}";
      py "    ";
      py "    Summary:";
      py "    " ].

Definition generate_summary (transcript format_type length language : str) : M str :=
  try_except
    (let template := get_summary_prompt format_type length language in
     summary ← call (call_chain_run template)
                 (fun w => chain_run E w template transcript);
     mret (str_strip (unicode E) summary))
    (fun e => raise (HTTPException 500 (py "Error generating summary: " ++ str_of e))).

Definition storage_append (response : SummaryResponse) : M unit :=
  log (call_append (id response));;
  (fun w => (Ok tt, {| files := files w;
                       summary_storage := summary_storage w ++ [response];
                       trace := trace w |})) : M unit.

(** The steps both endpoints share once the transcript is there. *)
Definition optional_sentiment (include : bool) (transcript : str) :
    option sentiment_dict :=
  if include then Some (analyze_sentiment (polarity_scores E) transcript) else None.

Definition make_response (summary : str) (md : metadata_dict) (transcript : str)
    (sentiment : option sentiment_dict) (keywords : list str) : M SummaryResponse :=
  ask (fun w =>
    {| id := uuid4 E w; summary := summary; metadata := md;
       transcript := transcript; sentiment := sentiment;
       keywords := Some keywords; timestamp := now E w |}).

Definition summarize_video (request : SummaryRequest) : M SummaryResponse :=
  match url request with
  | None | Some [] => raise (HTTPException 400 (py "URL is required"))
  | Some request_url =>
      try_except
        (video_id ← lift (extract_video_id request_url);
         md ← get_video_metadata video_id;
         transcript ← extract_youtube_transcript video_id;
         summary ← generate_summary transcript (format request)
                     (length_ request) (language request);
         let sentiment := optional_sentiment (include_sentiment request) transcript in
         let keywords := extract_keywords (unicode E) transcript in
         response ← make_response summary md transcript sentiment keywords;
         storage_append response;;
         mret response)
        (fun e => raise (HTTPException 500 (str_of e)))
  end.

Definition accepted_suffixes : list str :=
  [py ".mp4"; py ".avi"; py ".mov"; py ".mkv"].

(** [file.filename.lower().endswith(('.mp4', '.avi', '.mov', '.mkv'))]. *)
Definition accepted (name : str) : bool :=
  existsb (endswith (str_lower (unicode E) name)) accepted_suffixes.

Definition summarize_uploaded_video (file : UploadFile)
    (format length language : str) (include_sentiment : bool) : M SummaryResponse :=
  if negb (accepted (filename file))
  then raise (HTTPException 400 (py "Unsupported file format"))
  else
    try_except
      (temp_path ← ask (fun w => mktemp E w (splitext E (filename file)).2);
       log (call_mktemp temp_path);;
       log (call_open_wb temp_path);;
       set_files (fun fs => fs ∪ {[temp_path]});;
       transcript ← extract_audio_transcript temp_path;
       summary ← generate_summary transcript format length language;
       let sentiment := optional_sentiment include_sentiment transcript in
       let keywords := extract_keywords (unicode E) transcript in
       let md := file_metadata (filename file) (List.length (content file))
                   (content_type file) in
       response ← make_response summary md transcript sentiment keywords;
       storage_append response;;
       os_remove temp_path;;
       mret response)
      (fun e => raise (HTTPException 500 (str_of e))).

End Backend.
End Backend.
Import Backend.

(** ** The store endpoints *)

(** What [delete_summary] answers. *)
Record message_dict := { message : str }.

Module FileResponse.
Record t := { path : str; filename : str; media_type : str }.
End FileResponse.

Module Store.
Section Store.

Variable E : Env.

(** [format(x, ".2f")] of the interpreter. *)
Variable format_2f : float -> str.

(** The loop [for summary in summary_storage: if summary['id'] == summary_id]:
    the first stored record with that id. *)
Fixpoint first_with_id (summary_id : str) (storage : list SummaryResponse) :
    option SummaryResponse :=
  match storage with
  | [] => None
  | summary :: rest =>
      if bool_decide (id summary = summary_id) then Some summary
      else first_with_id summary_id rest
  end.

Definition get_summary (summary_id : str) : M SummaryResponse :=
  with_world (fun w =>
    match first_with_id summary_id (summary_storage w) with
    | Some summary => mret summary
    | None => raise (HTTPException 404 (py "Summary not found"))
    end).

Definition get_all_summaries : M (list SummaryResponse) := ask summary_storage.

(** The store is rebound to the records with another id. *)
Definition delete_summary (summary_id : str) : M message_dict := fun w =>
  (Ok {| message := py "Summary deleted" |},
   {| files := files w;
      summary_storage := filter (fun s => id s <> summary_id) (summary_storage w);
      trace := trace w |}).





End Store.
End Store.
Import Store.

(** ** A sample environment

    Collaborators that always give the same answer: the captions, the
    recognized speech and the generated text are the parameters. *)

Definition no_scores : Vader.scores :=
  {| Vader.neg := 0; Vader.neu := 1; Vader.pos := 0; Vader.compound := 0 |}%float.

(** The extension from the last dot on, enough for plain file names. *)
Fixpoint last_dot (s : str) : option str :=
  match s with
  | [] => None
  | c :: s' =>
      match last_dot s' with
      | Some ext => Some ext
      | None => if c =? 46 then Some s else None
      end
  end.

Definition sample_splitext (name : str) : str * str :=
  match last_dot name with
  | Some ext => (take (length name - length ext) name, ext)
  | None => (name, [])
  end.

Definition sample_env (captions : result (list caption)) (speech answer : result str) : Env :=
  {| unicode := ascii_tables;
     polarity_scores := fun _ => no_scores;
     http_str := fun _ detail => detail;
     get_transcript := fun _ _ => captions;
     YouTube := fun _ _ =>
       Ok {| yt_title := py "A talk"; yt_author := py "A speaker"; yt_length := 60;
             yt_views := 1; yt_thumbnail_url := py "https://i.ytimg.com/vi/x/default.jpg";
             yt_publish_date := None |};
     VideoFileClip := fun _ _ => Ok true;
     mktemp := fun _ suffix => py "/tmp/tmpk3j2" ++ suffix;
     write_audiofile := fun _ _ _ => Ok tt;
     record := fun _ _ => Ok tt;
     recognize_google := fun _ _ => speech;
     splitext := sample_splitext;
     chain_run := fun _ _ _ => answer;
     uuid4 := fun _ => py "0b1f8c1e-5a7d-4c59-9d0e-3f2a6b7c8d9e";
     now := fun _ => py "2024-05-01T12:00:00" |}.

Definition empty_world : World :=
  {| files := ∅; summary_storage := []; trace := [] |}.

(** The world right after a call has been recorded: what the collaborator
    sees when it answers. *)
Definition recorded (w : World) (ev : event) : World :=
  {| files := files w; summary_storage := summary_storage w; trace := trace w ++ [ev] |}.

Definition is_fallback_call (ev : event) : bool :=
  match ev with
  | call_extract_audio_transcript _ => true
  | _ => false
  end.

Definition fallback_calls (t : list event) : nat :=
  List.length (List.filter is_fallback_call t).

Definition watch_url (video_id : str) : str :=
  py "https://www.youtube.com/watch?v=" ++ video_id.

(** The words of the specification about locators. *)

(** The two markers of the pattern and an 11-character identifier token. *)
Definition marker (m : str) : Prop := m = py "v=" \/ m = py "/".

Definition token (t : str) : Prop :=
  length t = 11%nat /\ Forall (fun c => is_id_char c = true) t.

(** [s] has a marker right after [pre], and the token [t] right after it. *)
Definition token_at (s pre t : str) : Prop :=
  exists m post, s = pre ++ m ++ t ++ post /\ marker m /\ token t.

Definition contains_token (s : str) : Prop := exists pre t, token_at s pre t.

(** No marker with a token starts before the one right after [pre]. *)
Definition leftmost (s pre : str) : Prop :=
  forall pre' t', token_at s pre' t' -> (length pre <= length pre')%nat.

(** Group 1 of the pattern at every start position of [s], left to right. *)
Fixpoint all_matches (s : str) : list str :=
  match match_at s with Some g => [g] | None => [] end
  ++ match s with [] => [] | _ :: s' => all_matches s' end.

(** No match of the pattern starts at one of the first [n] positions. *)
Fixpoint no_match_before (n : nat) (s : str) : bool :=
  match n with
  | O => true
  | S n' =>
      match match_at s, s with
      | None, _ :: s' => no_match_before n' s'
      | _, _ => false
      end
  end.

(** The words of the specification about keywords. *)

(** How often [w] occurs in [ws], and where it occurs first. *)
Definition frequency (w : str) (ws : list str) : nat :=
  length (filter (fun x => x = w) ws).

Fixpoint first_index (w : str) (ws : list str) : nat :=
  match ws with
  | [] => O
  | x :: ws' => if decide (x = w) then O else S (first_index w ws')
  end.

(** [a] is ranked before [b]: it is more frequent, or as frequent and
    first seen earlier. *)
Definition ranks_before (ws : list str) (a b : str) : Prop :=
  (frequency b ws < frequency a ws)%nat
  \/ (frequency a ws = frequency b ws /\ (first_index a ws < first_index b ws)%nat).

(** A token that can be a keyword. *)
Definition qualifies (w : str) : Prop := (w ∉ stop_words) /\ (5 <= length w)%nat.

(** Whether the letter run at the start of [s] ends at a boundary. *)
Definition run_ends (U : Unicode) (s : str) : bool :=
  negb (word_at U (head (drop (length (letters s)) s))).

(** The order of a stable sort by descending count, [P] being the order of
    the entries before the sort. *)
Definition by_count (P : relation (str * nat)) : relation (str * nat) :=
  fun x y => (snd y < snd x)%nat \/ (snd x = snd y /\ P x y).

(** A computation keeps a relation between the world before and after. *)
Definition keeps (I : relation World) {A} (m : M A) : Prop :=
  forall w, I w (m w).2.

Definition same_storage : relation World :=
  fun w w' => summary_storage w' = summary_storage w.

Definition same_fallback_calls : relation World :=
  fun w w' => fallback_calls (trace w') = fallback_calls (trace w).

(** The words of the specification about uploads: the lower-cased file name
    ends with one of the accepted extensions. *)
Definition has_accepted_extension (E : Env) (name : str) : Prop :=
  exists suffix stem,
    suffix ∈ accepted_suffixes /\ str_lower (unicode E) name = stem ++ suffix.

(** Speech that is not understood: [recognize_google] raises
    [UnknownValueError], whose text is empty. *)
Definition speech_not_understood : Env :=
  sample_env (Raise (LibraryError (py "no element found")))
    (Raise (LibraryError [])) (Ok (py "- a summary")).

(** The world right after a response has been appended to the store. *)
Definition stored (w : World) (response : SummaryResponse) : World :=
  {| files := files w;
     summary_storage := summary_storage w ++ [response];
     trace := trace w ++ [call_append (id response)] |}.

(** The world of an upload when transcription starts: the temporary path
    has been chosen and the upload written to it. *)
Definition uploaded (w : World) (temp_path : str) : World :=
  {| files := files w ∪ {[temp_path]};
     summary_storage := summary_storage w;
     trace := trace w ++ [call_mktemp temp_path; call_open_wb temp_path] |}.

(** Sample inputs of the two endpoints. *)
Definition sample_request (include : bool) : SummaryRequest :=
  {| url := Some (py "https://www.youtube.com/watch?v=dQw4w9WgXcQ");
     format := py "bullet_points"; length_ := py "medium"; language := py "english";
     include_sentiment := include |}.

Definition sample_file (name : str) : UploadFile :=
  {| filename := name; content_type := Some (py "video/mp4"); content := [0; 0; 0; 24] |}.

(** A stored record with a given id, and a store of two. *)
Definition sample_record (record_id : str) : SummaryResponse :=
  {| id := record_id; summary := py "- a summary";
     metadata := file_metadata (py "talk.mp4") 4 (Some (py "video/mp4"));
     transcript := py "spoken words"; sentiment := None;
     keywords := Some [py "spoken"; py "words"];
     timestamp := py "2024-05-01T12:00:00" |}.

Definition sample_store : World :=
  {| files := ∅;
     summary_storage := [sample_record (py "first"); sample_record (py "second")];
     trace := [] |}.

(** The sample environment with a video pytube cannot open. *)
Definition metadata_unavailable : Env :=
  let E := sample_env (Ok []) (Ok []) (Ok []) in
  {| unicode := unicode E; polarity_scores := polarity_scores E;
     http_str := http_str E; get_transcript := get_transcript E;
     YouTube := fun _ _ => Raise (LibraryError (py "dQw4w9WgXcQ is unavailable"));
     VideoFileClip := VideoFileClip E; mktemp := mktemp E;
     write_audiofile := write_audiofile E; record := record E;
     recognize_google := recognize_google E; splitext := splitext E;
     chain_run := chain_run E; uuid4 := uuid4 E; now := now E |}.

(* ================================================================== *)
(** * Properties *)

Example extract_watch :
  extract_video_id (py "https://www.youtube.com/watch?v=dQw4w9WgXcQ") = Ok (py "dQw4w9WgXcQ").
Proof. vm_compute. reflexivity. Qed.

(** ** Identifier extraction: what the pattern finds *)

Section VideoIdFacts.

Lemma group1_token t post : token t -> group1 (t ++ post) = Some t.
Proof.
  intros [Hlen Hid]. unfold group1.
  rewrite take_app_length' by done. rewrite Hlen. simpl.
  assert (forallb is_id_char t = true) as ->; [|done].
  apply forallb_forall. intros c Hc. rewrite Forall_forall in Hid.
  apply Hid. by apply list_elem_of_In.
Qed.

Lemma group1_inv r g : group1 r = Some g -> token g /\ exists post, r = g ++ post.
Proof.
  unfold group1. intros H.
  destruct (length (take 11 r) =? 11)%nat eqn:Hlen; [|done].
  destruct (forallb is_id_char (take 11 r)) eqn:Hid; [|done].
  simpl in H. injection H as <-. apply Nat.eqb_eq in Hlen. split.
  - split; [done|]. apply Forall_forall. intros c Hc.
    rewrite forallb_forall in Hid. apply Hid. by apply list_elem_of_In.
  - exists (drop 11 r). by rewrite take_drop.
Qed.

Lemma match_at_marker m t post :
  marker m -> token t -> match_at (m ++ t ++ post) = Some t.
Proof.
  intros [-> | ->] Ht; unfold match_at, after_marker.
  - change (py "v=" ++ t ++ post) with (118 :: 61 :: t ++ post).
    change (startswith (118 :: 61 :: t ++ post) (py "v=")) with true.
    change (drop 2 (118 :: 61 :: t ++ post)) with (t ++ post).
    cbn [app first_match]. by rewrite (group1_token t post Ht).
  - change (py "/" ++ t ++ post) with (47 :: t ++ post).
    change (startswith (47 :: t ++ post) (py "v=")) with false.
    change (startswith (47 :: t ++ post) (py "/")) with true.
    change (drop 1 (47 :: t ++ post)) with (t ++ post).
    cbn [app first_match]. by rewrite (group1_token t post Ht).
Qed.

Lemma startswith_prefix s p : startswith s p = true <-> exists r, s = p ++ r.
Proof.
  induction p as [|a p IH] in s |- *; simpl.
  - split; [by exists s | done].
  - destruct s as [|b s]; [split; [done | by intros [r Hr]]|].
    rewrite andb_true_iff, N.eqb_eq, IH. split.
    + intros [-> [r ->]]. by exists r.
    + intros [r [= -> ->]]. split; [done | by exists r].
Qed.

Lemma match_at_inv s g :
  match_at s = Some g -> exists m post, s = m ++ g ++ post /\ marker m /\ token g.
Proof.
  unfold match_at, after_marker. intros H.
  destruct (startswith s (py "v=")) eqn:Hv.
  - apply startswith_prefix in Hv as [r ->].
    change (drop 2 (py "v=" ++ r)) with r in H. cbn [app first_match] in H.
    destruct (group1 r) as [g'|] eqn:Hg.
    + injection H as ->. apply group1_inv in Hg as [Ht [post ->]].
      exists (py "v="), post. split; [done | split; [by left | done]].
    + change (startswith (py "v=" ++ r) (py "/")) with false in H. done.
  - destruct (startswith s (py "/")) eqn:Hs; [|done].
    apply startswith_prefix in Hs as [r ->].
    change (drop 1 (py "/" ++ r)) with r in H. cbn [app first_match] in H.
    destruct (group1 r) as [g'|] eqn:Hg; [|done].
    injection H as ->. apply group1_inv in Hg as [Ht [post ->]].
    exists (py "/"), post. split; [done | split; [by right | done]].
Qed.

Lemma match_at_token_at s t : match_at s = Some t <-> token_at s [] t.
Proof.
  split.
  - intros H. apply match_at_inv in H as (m & post & -> & Hm & Ht).
    by exists m, post.
  - intros (m & post & -> & Hm & Ht). by apply (match_at_marker m t post).
Qed.

Lemma token_at_cons c s pre t : token_at (c :: s) (c :: pre) t <-> token_at s pre t.
Proof.
  split; intros (m & post & Hs & Hm & Ht); exists m, post; (split; [|done]).
  - simpl in Hs. by injection Hs.
  - simpl. by rewrite Hs.
Qed.

(** [search] returns the token after the leftmost marker that has one. *)
Lemma search_Some s t :
  search s = Some t <->
  exists pre, token_at s pre t /\
    forall pre' t', token_at s pre' t' -> (length pre <= length pre')%nat.
Proof.
  induction s as [|c s IH] in t |- *; simpl.
  - destruct (match_at []) as [g|] eqn:Hm.
    { apply match_at_inv in Hm as (m & post & Hs & _ & [Hl _]).
      destruct m, g; simplify_eq/=. }
    split; [done|]. intros (pre & (m & post & Hs & _ & [Hl _]) & _).
    destruct pre, m, t; simplify_eq/=.
  - destruct (match_at (c :: s)) as [g|] eqn:Hm.
    + split.
      * intros [= ->]. exists []. split; [by apply match_at_token_at|].
        intros; simpl; lia.
      * intros (pre & Hat & Hleft).
        apply match_at_token_at in Hm. specialize (Hleft _ _ Hm).
        destruct pre; [|simpl in Hleft; lia].
        apply match_at_token_at in Hat, Hm. congruence.
    + rewrite IH. split.
      * intros (pre & Hat & Hleft). exists (c :: pre). split.
        { by apply token_at_cons. }
        intros pre' t' Hat'. destruct pre' as [|c' pre'].
        { apply match_at_token_at in Hat'. congruence. }
        assert (c' = c) as ->.
        { destruct Hat' as (m & post & Hs & _). simpl in Hs. by injection Hs. }
        apply token_at_cons in Hat'. specialize (Hleft _ _ Hat'). simpl. lia.
      * intros (pre & Hat & Hleft). destruct pre as [|c' pre].
        { apply match_at_token_at in Hat. congruence. }
        assert (c' = c) as ->.
        { destruct Hat as (m & post & Hs & _). simpl in Hs. by injection Hs. }
        exists pre. split; [by apply token_at_cons in Hat|].
        intros pre' t' Hat'. apply token_at_cons with (c := c) in Hat'.
        specialize (Hleft _ _ Hat'). simpl in Hleft. lia.
Qed.

Lemma search_None s : search s = None <-> ~ contains_token s.
Proof.
  induction s as [|c s IH]; simpl.
  - destruct (match_at []) as [g|] eqn:Hm.
    { apply match_at_inv in Hm as (m & post & Hs & _ & [Hl _]).
      destruct m, g; simplify_eq/=. }
    split; [|done]. intros _ (pre & t & m & post & Hs & _ & [Hl _]).
    destruct pre, m, t; simplify_eq/=.
  - destruct (match_at (c :: s)) as [g|] eqn:Hm.
    + split; [done|]. intros Hno. exfalso. apply Hno.
      exists [], g. by apply match_at_token_at.
    + rewrite IH. split.
      * intros Hno (pre & t & Hat). destruct pre as [|c' pre].
        { apply match_at_token_at in Hat. congruence. }
        assert (c' = c) as ->.
        { destruct Hat as (m & post & Hs & _). simpl in Hs. by injection Hs. }
        apply Hno. exists pre, t. by apply token_at_cons in Hat.
      * intros Hno (pre & t & Hat). apply Hno. exists (c :: pre), t.
        by apply token_at_cons.
Qed.

Lemma search_contains s : contains_token s -> exists t, search s = Some t.
Proof.
  intros H. destruct (search s) as [t|] eqn:Hs; [by exists t|].
  by apply search_None in Hs.
Qed.

Lemma token_at_head c s c' pre t : token_at (c :: s) (c' :: pre) t -> c' = c.
Proof. intros (m & post & Hs & _). simpl in Hs. by injection Hs. Qed.

Lemma token_at_all_matches s pre t : token_at s pre t -> t ∈ all_matches s.
Proof.
  induction pre as [|c pre IH] in s |- *; intros Hat.
  - apply match_at_token_at in Hat. destruct s; cbn [all_matches]; rewrite Hat; set_solver.
  - destruct s as [|c' s].
    { destruct Hat as (m & post & Hs & _). done. }
    pose proof (token_at_head _ _ _ _ _ Hat) as ->.
    apply token_at_cons, IH in Hat. cbn [all_matches]. set_solver.
Qed.

Lemma no_match_before_leftmost s pre :
  no_match_before (length pre) s = true -> leftmost s pre.
Proof.
  induction pre as [|c pre IH] in s |- *; intros Hno pre' t' Hat; simpl; [lia|].
  simpl in Hno. destruct (match_at s) eqn:Hm; [done|].
  destruct s as [|c' s]; [done|]. destruct pre' as [|c'' pre'].
  { apply match_at_token_at in Hat. congruence. }
  pose proof (token_at_head _ _ _ _ _ Hat) as ->.
  apply token_at_cons in Hat. specialize (IH _ Hno _ _ Hat). simpl. lia.
Qed.

Lemma token_at_app pre m t post : marker m -> token t -> token_at (pre ++ m ++ t ++ post) pre t.
Proof. intros Hm Ht. by exists m, post. Qed.

End VideoIdFacts.

(** Closes [token t] and [marker m] for a literal. *)
Ltac literal_token :=
  lazymatch goal with
  | |- token _ => split; [reflexivity | repeat constructor]
  | |- marker _ => first [left; reflexivity | right; reflexivity]
  end.

(** C3, as it is stated, at a locator with two tokens: the token after
    [v=] is there, and the one after the second slash is returned. *)
Lemma extract_video_id_not_every_token :
  let url := py "https://youtubekids.com/watch?v=dQw4w9WgXcQ" in
  token_at url (py "https://youtubekids.com/watch?") (py "dQw4w9WgXcQ")
  /\ extract_video_id url = Ok (py "youtubekids")
  /\ extract_video_id url <> Ok (py "dQw4w9WgXcQ").
Proof.
  split; [|split].
  - exists (py "v="), []. split; [reflexivity | split; literal_token].
  - vm_compute. reflexivity.
  - vm_compute. discriminate.
Qed.

(** C3, amended: a locator that contains an 11-character identifier token
    after [v=] or [/] yields such a token of the locator, and yields that
    exact token whenever every such token of the locator is the same one; a
    locator without such a token fails with [ValueError], the invalid-locator
    error. *)
Theorem extract_video_id_token_or_invalid (url : str) :
  (forall pre t, token_at url pre t ->
     (exists pre' t', extract_video_id url = Ok t' /\ token_at url pre' t')
     /\ ((forall pre' t', token_at url pre' t' -> t' = t) ->
         extract_video_id url = Ok t))
  /\ (~ contains_token url ->
      extract_video_id url = Raise (ValueError (py "Invalid YouTube URL"))).
Proof.
  unfold extract_video_id. split.
  - intros pre t Hat.
    destruct (search_contains url) as [t' Hs]; [by exists pre, t|].
    rewrite Hs. pose proof Hs as Hs'.
    apply search_Some in Hs' as (pre' & Hat' & _). split.
    + by exists pre', t'.
    + intros Hall. by rewrite (Hall _ _ Hat').
  - intros Hno. apply search_None in Hno. by rewrite Hno.
Qed.

Lemma extract_video_id_token_or_invalid_witness :
  extract_video_id (py "https://youtu.be/dQw4w9WgXcQ") = Ok (py "dQw4w9WgXcQ")
  /\ extract_video_id (py "/var/recordings/clip") = Raise (ValueError (py "Invalid YouTube URL")).
Proof.
  split.
  - refine (proj2 (proj1 (extract_video_id_token_or_invalid _)
                     (py "https://youtu.be") (py "dQw4w9WgXcQ") _) _).
    + exists (py "/"), []. split; [reflexivity | split; literal_token].
    + intros pre' t' Hat. apply token_at_all_matches in Hat.
      vm_compute in Hat. by apply list_elem_of_singleton in Hat.
  - apply (proj2 (extract_video_id_token_or_invalid _)).
    intros (pre & t & Hat). apply token_at_all_matches in Hat.
    vm_compute in Hat. by apply elem_of_nil in Hat.
Defined.

(** C9: the result is the 11 identifier characters right after the leftmost
    [v=] or [/] that at least 11 such characters follow; of a longer run only
    the first 11 are returned; and a slash followed by 11 identifier
    characters anywhere makes the locator accepted. *)
Theorem extract_video_id_leftmost :
  (forall url pre t,
     token_at url pre t -> leftmost url pre -> extract_video_id url = Ok t)
  /\ (forall url t, extract_video_id url = Ok t ->
        exists pre, token_at url pre t /\ leftmost url pre)
  /\ (forall m t c post,
        marker m -> token t -> is_id_char c = true ->
        extract_video_id (m ++ t ++ c :: post) = Ok t)
  /\ (forall pre t post,
        token t -> exists t', extract_video_id (pre ++ py "/" ++ t ++ post) = Ok t').
Proof.
  unfold extract_video_id. repeat split.
  - intros url pre t Hat Hleft.
    assert (search url = Some t) as ->; [|done].
    apply search_Some. by exists pre.
  - intros url t H. destruct (search url) as [g|] eqn:Hs; [|done].
    injection H as ->. by apply search_Some in Hs.
  - intros m t c post Hm Ht _.
    assert (search (m ++ t ++ c :: post) = Some t) as ->; [|done].
    apply search_Some. exists []. split; [by apply (token_at_app [])|].
    intros pre' t' _. simpl. lia.
  - intros pre t post Ht.
    destruct (search_contains (pre ++ py "/" ++ t ++ post)) as [t' ->].
    + exists pre, t. apply token_at_app; [by right | done].
    + by exists t'.
Qed.

Lemma extract_video_id_leftmost_witness :
  extract_video_id (py "https://youtubekids.com/watch?v=dQw4w9WgXcQ") = Ok (py "youtubekids")
  /\ extract_video_id (py "v=AAAAAAAAAAAB") = Ok (py "AAAAAAAAAAA")
  /\ exists t', extract_video_id (py "file:///home/recordings22/a.mp4") = Ok t'.
Proof.
  destruct extract_video_id_leftmost as (Hleft & _ & Hlong & Hslash).
  split; [|split].
  - apply (Hleft _ (py "https:/")).
    + exists (py "/"), (py ".com/watch?v=dQw4w9WgXcQ").
      split; [reflexivity | split; literal_token].
    + apply no_match_before_leftmost. vm_compute. reflexivity.
  - apply (Hlong (py "v=") (py "AAAAAAAAAAA") 66 []); [literal_token .. | reflexivity].
  - apply (Hslash (py "file:///home") (py "recordings2") (py "2/a.mp4")). literal_token.
Defined.

Example keywords_spec_example :
  extract_keywords ascii_tables
    (py "testing testing training training example example example")
  = map py ["example"; "testing"; "training"]%string.
Proof. vm_compute. reflexivity. Qed.

Example keywords_four_letters :
  extract_keywords ascii_tables (py "Word word WORDS words, This_is under_score caf3s about abouts")
  = map py ["words"; "abouts"]%string.
Proof. vm_compute. reflexivity. Qed.

(** ** Keyword extraction: the tokens *)

Section KeywordTokens.

Variable U : Unicode.

Lemma is_letter_word c : is_letter c = true -> is_word U c = true.
Proof. unfold is_word. by intros ->. Qed.

Lemma letters_lookup s i :
  (i < length (letters s))%nat -> exists c, s !! i = Some c /\ is_letter c = true.
Proof.
  induction s as [|c s IH] in i |- *; simpl; [lia|].
  destruct (is_letter c) eqn:Hc; simpl; [|lia].
  destruct i as [|i]; [by exists c|]. intros Hi. apply IH. lia.
Qed.

Lemma letters_take s : take (length (letters s)) s = letters s.
Proof.
  induction s as [|c s IH]; simpl; [done|].
  destruct (is_letter c); simpl; [by rewrite IH | done].
Qed.

(** Giving letters back never helps: inside the run both neighbours of
    the position are letters, so no boundary is there. *)
Lemma backtrack_inside n prev s k :
  (1 <= n)%nat -> (k < length (letters s))%nat -> backtrack U n prev s k = None.
Proof.
  intros Hn. induction k as [|k IH]; intros Hk; simpl.
  - destruct n; [lia | done].
  - destruct (S k <? n)%nat; [done|].
    destruct (letters_lookup s k) as (a & Ha & Hla); [lia|].
    destruct (letters_lookup s (S k)) as (b & Hb & Hlb); [lia|].
    assert (last (take (S k) s) = Some a) as ->.
    { rewrite last_lookup, length_take.
      apply lookup_lt_Some in Hb.
      replace (Init.Nat.pred (S k `min` length s)) with k by lia.
      rewrite lookup_take_lt by lia. done. }
    assert (head (drop (S k) s) = Some b) as ->.
    { rewrite head_lookup, lookup_drop. by rewrite Nat.add_0_r. }
    unfold boundary. simpl.
    rewrite (is_letter_word a Hla), (is_letter_word b Hlb). simpl.
    apply IH. lia.
Qed.

Lemma match_word_run n prev s :
  (1 <= n)%nat ->
  match_word U n prev s =
    if boundary U prev (head s) && (n <=? length (letters s))%nat && run_ends U s
    then Some (letters s) else None.
Proof.
  intros Hn. unfold match_word.
  destruct (boundary U prev (head s)); [|done]. simpl.
  destruct (length (letters s)) as [|m] eqn:Hm.
  - simpl. destruct n; [lia | done].
  - cbn [backtrack]. rewrite Nat.ltb_antisym.
    destruct (n <=? S m)%nat; [|done]. simpl.
    destruct (letters_lookup s m) as (a & Ha & Hla); [lia|].
    assert (last (take (S m) s) = Some a) as ->.
    { rewrite last_lookup, length_take.
      pose proof (lookup_lt_Some _ _ _ Ha).
      replace (Init.Nat.pred (S m `min` length s)) with m by lia.
      by rewrite lookup_take_lt by lia. }
    unfold boundary at 1, run_ends. rewrite Hm. simpl.
    rewrite (is_letter_word a Hla). simpl.
    destruct (word_at U (head (drop (S m) s))); simpl.
    + apply backtrack_inside; [done | lia].
    + by rewrite <- Hm, letters_take.
Qed.

(** Inside a run of letters no match starts. *)
Lemma findall_inside n c k s :
  (1 <= n)%nat -> is_letter c = true -> (k <= length (letters s))%nat ->
  findall_from U n (Some c) k s = findall_from U n (Some c) 0 s.
Proof.
  intros Hn. induction k as [|k IH] in c, s |- *; intros Hc Hk; [done|].
  destruct s as [|c' s]; simpl in Hk; [lia|].
  destruct (is_letter c') eqn:Hc'; simpl in Hk; [|lia].
  cbn [findall_from]. unfold match_word. cbn [head]. unfold boundary. simpl.
  rewrite (is_letter_word c Hc), (is_letter_word c' Hc'). simpl.
  apply IH; [done | lia].
Qed.

(** The tokens of four letters are the only difference between the two
    patterns. *)
Lemma findall_four_five prev k s :
  filter (fun word : str => (4 < length word)%nat) (findall_from U 4 prev k s)
  = findall_from U 5 prev k s.
Proof.
  induction s as [|c s IH] in prev, k |- *.
  - destruct k; cbn [findall_from]; [|done].
    rewrite !match_word_run by lia. simpl. by rewrite !andb_false_r.
  - destruct k as [|k]; cbn [findall_from]; [|apply IH].
    rewrite !match_word_run by lia.
    remember (letters (c :: s)) as L eqn:HL.
    destruct (boundary U prev (head (c :: s))); cbn [andb]; [|apply IH].
    destruct (run_ends U (c :: s)); [|rewrite !andb_false_r; apply IH].
    rewrite !andb_true_r.
    destruct (length L) as [|[|[|[|[|m]]]]] eqn:Hm; cbn [Nat.leb];
      try apply IH.
    + rewrite filter_cons_False by (rewrite Hm; lia).
      rewrite Hm. cbn [Nat.sub]. rewrite IH.
      simpl in HL. destruct (is_letter c) eqn:Hc; subst L; [|done].
      simpl in Hm. apply findall_inside; [lia | done | lia].
    + rewrite filter_cons_True by (rewrite Hm; lia).
      by rewrite IH.
Qed.

End KeywordTokens.

(** C6: the pattern of four letters or more followed by the length filter
    gives, for every text, the keywords of the simplified extraction that
    asks for five letters or more at once. *)
Theorem extract_keywords_simplified_eq (U : Unicode) (text : str) :
  extract_keywords U text = extract_keywords_simplified U text.
Proof.
  unfold extract_keywords, extract_keywords_simplified, filtered_words, findall.
  by rewrite <- list_filter_filter, findall_four_five.
Qed.

(** ** Keyword extraction: counting and ranking *)

Section KeywordRanking.

Local Open Scope nat_scope.
Implicit Types (k w : str) (l ws : list str) (C : list (str * nat)).

Lemma frequency_snoc k l w :
  frequency k (l ++ [w]) = frequency k l + (if decide (w = k) then 1 else 0).
Proof.
  unfold frequency. rewrite filter_app, length_app. f_equal.
  rewrite filter_cons, filter_nil. by destruct (decide (w = k)).
Qed.

Lemma frequency_pos k l : 0 < frequency k l <-> k ∈ l.
Proof.
  unfold frequency. induction l as [|x l IH]; simpl.
  - split; [lia | by intros ?%elem_of_nil].
  - rewrite filter_cons. destruct (decide (x = k)) as [->|Hne]; simpl.
    + split; [intros _; constructor | lia].
    + rewrite IH, elem_of_cons. split; [by right | by intros [->|?]].
Qed.

Lemma first_index_lt k l : first_index k l < length l <-> k ∈ l.
Proof.
  induction l as [|x l IH]; simpl.
  - split; [lia | by intros ?%elem_of_nil].
  - destruct (decide (x = k)) as [->|Hne].
    + split; [intros _; constructor | lia].
    + rewrite elem_of_cons, <- IH. split; [intros; right; lia|].
      intros [->|?]; [done | lia].
Qed.

Lemma first_index_app_l k l l2 : k ∈ l -> first_index k (l ++ l2) = first_index k l.
Proof.
  induction l as [|x l IH]; simpl; [by intros ?%elem_of_nil|].
  destruct (decide (x = k)); [done|]. intros [->|?]%elem_of_cons; [done|].
  by rewrite IH.
Qed.

Lemma first_index_app_r k l l2 :
  k ∉ l -> first_index k (l ++ l2) = length l + first_index k l2.
Proof.
  induction l as [|x l IH]; simpl; [done|].
  intros Hk. destruct (decide (x = k)) as [->|Hne]; [set_solver|].
  rewrite IH; [done | set_solver].
Qed.

(** Sortedness carries over along a map, between relations that agree on
    the members of the list. *)
Lemma StronglySorted_map_members {A B} (f : A -> B) (R : relation A) (R' : relation B)
    (xs : list A) :
  (forall x y, x ∈ xs -> y ∈ xs -> R x y -> R' (f x) (f y)) ->
  StronglySorted R xs -> StronglySorted R' (f <$> xs).
Proof.
  induction xs as [|x xs IH]; intros HR Hs; simpl; [constructor|].
  apply StronglySorted_cons in Hs as [Hx Hs]. apply StronglySorted_cons. split.
  - apply Forall_fmap, Forall_forall. intros y Hy. simpl.
    apply HR; [set_solver | set_solver |]. rewrite Forall_forall in Hx. by apply Hx.
  - apply IH; [|done]. intros y z Hy Hz. apply HR; set_solver.
Qed.

Lemma StronglySorted_members {A} (R R' : relation A) (xs : list A) :
  (forall x y, x ∈ xs -> y ∈ xs -> R x y -> R' x y) ->
  StronglySorted R xs -> StronglySorted R' xs.
Proof.
  intros HR Hs. rewrite <- (list_fmap_id xs).
  by apply (StronglySorted_map_members (fun x => x) R R').
Qed.

Lemma StronglySorted_unmap {A B} (f : A -> B) (R' : relation B) (xs : list A) :
  StronglySorted R' (f <$> xs) -> StronglySorted (fun x y => R' (f x) (f y)) xs.
Proof.
  induction xs as [|x xs IH]; simpl; [constructor|].
  rewrite !StronglySorted_cons, Forall_fmap. intros [Hx Hs]. split; [done | by apply IH].
Qed.

Lemma StronglySorted_NoDup {A} (R : relation A) (xs : list A) :
  (forall x, ~ R x x) -> StronglySorted R xs -> NoDup xs.
Proof.
  intros Hirr. induction xs as [|x xs IH]; [constructor|].
  rewrite StronglySorted_cons, NoDup_cons, Forall_forall. intros [Hx Hs].
  split; [|by apply IH]. intros Hin. by apply (Hirr x), Hx.
Qed.

Lemma StronglySorted_take {A} (R : relation A) n (xs : list A) :
  StronglySorted R xs -> StronglySorted R (take n xs).
Proof.
  intros Hs. rewrite <- (take_drop n xs) in Hs.
  by apply StronglySorted_app_1_l in Hs.
Qed.

(** *** The counter *)

Lemma Counter_snoc l w : Counter (l ++ [w]) = counter_add w (Counter l).
Proof. unfold Counter. by rewrite foldl_app. Qed.

Lemma counter_add_keys w C :
  (counter_add w C).*1 = if decide (w ∈ C.*1) then C.*1 else C.*1 ++ [w].
Proof.
  induction C as [|[k n] C IH]; [done|].
  cbn [counter_add]. rewrite (fmap_cons fst (k, n) C). cbn [fst].
  case_bool_decide as Hk.
  - subst k. rewrite fmap_cons. cbn [fst].
    by rewrite decide_True by constructor.
  - rewrite fmap_cons, IH. cbn [fst].
    destruct (decide (w ∈ C.*1)) as [Hin|Hin].
    + by rewrite decide_True by by constructor.
    + rewrite decide_False; [done|]. by intros [->|?]%elem_of_cons.
Qed.

Lemma counter_add_elem w C k n :
  NoDup C.*1 -> (k, n) ∈ counter_add w C ->
  (k <> w /\ (k, n) ∈ C)
  \/ (k = w /\ ((exists m, n = S m /\ (w, m) ∈ C) \/ (n = 1 /\ w ∉ C.*1))).
Proof.
  induction C as [|[k0 n0] C IH]; simpl; intros Hnd Hin.
  - apply list_elem_of_singleton in Hin as [= -> ->]. right. split; [done|].
    right. split; [done | by intros ?%elem_of_nil].
  - apply NoDup_cons in Hnd as [Hk0 Hnd]. case_bool_decide as Hk.
    + subst k0. apply elem_of_cons in Hin as [[= -> ->]|Hin].
      * right. split; [done|]. left. exists n0. split; [done | constructor].
      * left. split; [|by constructor]. intros ->. apply Hk0.
        apply list_elem_of_fmap. by exists (w, n).
    + apply elem_of_cons in Hin as [[= -> ->]|Hin].
      * left. split; [done | constructor].
      * destruct (IH Hnd Hin) as [[Hne Hc]|[-> [(m & -> & Hc)|[-> Hc]]]].
        -- left. split; [done | by constructor].
        -- right. split; [done|]. left. exists m. split; [done | by constructor].
        -- right. split; [done|]. right. split; [done|].
           intros [->|?]%elem_of_cons; done.
Qed.

(** One entry per distinct word with its number of occurrences, in the
    order of first occurrence. *)
Lemma Counter_inv l :
  NoDup (Counter l).*1
  /\ (forall k, k ∈ (Counter l).*1 <-> k ∈ l)
  /\ (forall k n, (k, n) ∈ Counter l -> n = frequency k l)
  /\ StronglySorted (fun a b => first_index a l < first_index b l) (Counter l).*1.
Proof.
  induction l as [|w l (Hnd & Hkeys & Hcount & Hsort)] using rev_ind.
  - repeat split; try constructor; try done. by intros k n ?%elem_of_nil.
  - rewrite Counter_snoc.
    assert (forall a b, a ∈ (Counter l).*1 -> b ∈ (Counter l).*1 ->
              first_index a l < first_index b l ->
              first_index a (l ++ [w]) < first_index b (l ++ [w])) as Hsame.
    { intros a b Ha%Hkeys Hb%Hkeys. by rewrite !first_index_app_l. }
    split; [|split; [|split]].
    + rewrite counter_add_keys. destruct (decide (w ∈ (Counter l).*1)); [done|].
      apply NoDup_app. split; [done|]. split; [|apply NoDup_singleton].
      by intros k Hk ->%list_elem_of_singleton.
    + intros k. rewrite counter_add_keys, elem_of_app, list_elem_of_singleton.
      destruct (decide (w ∈ (Counter l).*1)) as [Hw|Hw].
      * rewrite Hkeys. split; [by left|]. intros [?| ->]; [done | by apply Hkeys].
      * by rewrite elem_of_app, list_elem_of_singleton, Hkeys.
    + intros k n Hin. rewrite frequency_snoc.
      destruct (counter_add_elem _ _ _ _ Hnd Hin)
        as [[Hne Hc]|[-> [(m & -> & Hc)|[-> Hc]]]].
      * rewrite (Hcount _ _ Hc). destruct (decide (w = k)); [done | lia].
      * rewrite (Hcount _ _ Hc). destruct (decide (w = w)); [lia | done].
      * destruct (decide (w = w)); [|done].
        assert (frequency w l = 0); [|lia].
        destruct (frequency w l) eqn:Hf; [done|]. exfalso. apply Hc, Hkeys.
        apply frequency_pos. lia.
    + rewrite counter_add_keys. destruct (decide (w ∈ (Counter l).*1)) as [Hw|Hw].
      * by apply (StronglySorted_members _ _ _ Hsame).
      * apply StronglySorted_app. split; [|split].
        -- intros a b Ha ->%list_elem_of_singleton.
           rewrite first_index_app_l by by apply Hkeys.
           rewrite first_index_app_r by by rewrite <- Hkeys.
           apply Hkeys, first_index_lt in Ha. lia.
        -- by apply (StronglySorted_members _ _ _ Hsame).
        -- repeat constructor.
Qed.

(** *** The stable sort *)

Section Stable.

Variable P : relation (str * nat).

Lemma insert_desc_perm x acc : insert_desc x acc ≡ₚ x :: acc.
Proof.
  induction acc as [|y acc IH]; simpl; [done|].
  destruct (snd y <? snd x); [done|]. by rewrite IH, Permutation_swap.
Qed.

Lemma insert_desc_sorted x acc :
  StronglySorted (by_count P) acc -> Forall (fun y => P y x) acc ->
  StronglySorted (by_count P) (insert_desc x acc).
Proof.
  induction acc as [|y acc IH]; simpl; intros Hs Hp.
  - repeat constructor.
  - apply StronglySorted_cons in Hs as [Hy Hs].
    apply Forall_cons in Hp as [Hyx Hp].
    destruct (snd y <? snd x) eqn:Hlt.
    + apply Nat.ltb_lt in Hlt. apply StronglySorted_cons. split.
      * constructor; [by left|]. eapply Forall_impl; [exact Hy|].
        intros z [Hz|[Hz _]]; left; simpl in *; lia.
      * by apply StronglySorted_cons.
    + apply Nat.ltb_ge in Hlt. apply StronglySorted_cons. split; [|by apply IH].
      rewrite insert_desc_perm. constructor; [|done].
      destruct (decide (snd x = snd y)) as [Heq|Hne]; [by right | left; lia].
Qed.

Lemma sorted_desc_from (acc es : list (str * nat)) :
  StronglySorted (by_count P) acc -> StronglySorted P es ->
  (forall y x, y ∈ acc -> x ∈ es -> P y x) ->
  StronglySorted (by_count P) (foldl (fun a x => insert_desc x a) acc es)
  /\ foldl (fun a x => insert_desc x a) acc es ≡ₚ acc ++ es.
Proof.
  induction es as [|x es IH] in acc |- *; simpl; intros Hacc Hes Hp.
  - by rewrite app_nil_r.
  - apply StronglySorted_cons in Hes as [Hx Hes].
    destruct (IH (insert_desc x acc)) as [Hs Hperm]; [|done|..].
    + apply insert_desc_sorted; [done|]. apply Forall_forall.
      intros y Hy. apply Hp; [done | constructor].
    + intros y x' Hy Hx'. rewrite insert_desc_perm in Hy.
      apply elem_of_cons in Hy as [->|Hy].
      * rewrite Forall_forall in Hx. by apply Hx.
      * apply Hp; [done | by constructor].
    + split; [done|]. rewrite Hperm, insert_desc_perm. simpl.
      apply Permutation_middle.
Qed.

Lemma sorted_desc_sorted (es : list (str * nat)) :
  StronglySorted P es ->
  StronglySorted (by_count P) (sorted_desc es) /\ sorted_desc es ≡ₚ es.
Proof.
  intros Hes. apply (sorted_desc_from [] es); [constructor | done|].
  by intros y x ?%elem_of_nil.
Qed.

End Stable.

(** *** The filter keeps counts and the order of first occurrence *)

Section Filter.

Context (Q : str -> Prop) `{!forall x, Decision (Q x)}.

Lemma frequency_filter k l : Q k -> frequency k (filter Q l) = frequency k l.
Proof.
  intros Hk. unfold frequency. rewrite list_filter_filter. f_equal.
  apply list_filter_iff. intros x. split; [by intros [-> _] | by intros ->].
Qed.

Lemma first_index_filter k k' l :
  Q k -> Q k' ->
  first_index k (filter Q l) < first_index k' (filter Q l)
  <-> first_index k l < first_index k' l.
Proof.
  intros Hk Hk'. induction l as [|x l IH]; [done|].
  rewrite filter_cons. simpl. destruct (decide (Q x)) as [Hx|Hx]; simpl.
  - destruct (decide (x = k)), (decide (x = k')); lia.
  - destruct (decide (x = k)) as [->|]; [done|].
    destruct (decide (x = k')) as [->|]; [done|]. lia.
Qed.

End Filter.

End KeywordRanking.

Section KeywordsRanked.

Local Open Scope nat_scope.
Variable U : Unicode.

Lemma elem_of_take_elem {A} (x : A) n (xs : list A) : x ∈ take n xs -> x ∈ xs.
Proof. intros Hx. rewrite <- (take_drop n xs). apply elem_of_app. by left. Qed.

(** C4: the keywords of a text are distinct, at most 10, each of five
    letters or more and outside the stop words, and ranked by descending
    frequency among the tokens of the text, ties by first occurrence; a
    qualifying token that is left out ranks behind all ten. *)
Theorem extract_keywords_ranked (text : str) :
  let ws := findall U 4 (str_lower U text) in
  let ks := extract_keywords U text in
  NoDup ks
  /\ length ks <= 10
  /\ (forall k, k ∈ ks -> 5 <= length k /\ (k ∉ stop_words) /\ k ∈ ws)
  /\ StronglySorted (ranks_before ws) ks
  /\ (forall w, w ∈ ws -> qualifies w -> w ∉ ks ->
        length ks = 10 /\ forall k, k ∈ ks -> ranks_before ws k w).
Proof.
  intros ws ks. unfold extract_keywords, most_common, filtered_words in ks.
  fold ws in ks.
  set (Q := fun word : str => (word ∉ stop_words) /\ 4 < length word) in ks.
  set (fw := filter Q ws) in ks.
  destruct (Counter_inv fw) as (Hnd & Hkeys & Hcount & Hsort).
  set (Pfw := fun x y : str * nat => first_index x.1 fw < first_index y.1 fw).
  pose proof (StronglySorted_unmap fst _ _ Hsort) as Hsort'.
  destruct (sorted_desc_sorted Pfw _ Hsort') as [Hs Hperm].
  assert (forall x, x ∈ Counter fw ->
            Q x.1 /\ x.1 ∈ ws /\ x.2 = frequency x.1 ws) as Hmem.
  { intros [k n] Hx. simpl.
    assert (k ∈ fw) as Hk.
    { apply Hkeys, list_elem_of_fmap. by exists (k, n). }
    apply list_elem_of_filter in Hk as [HQ Hk]. repeat split; try done; try apply HQ.
    rewrite (Hcount _ _ Hx). by apply (frequency_filter Q). }
  assert (forall x y, x ∈ Counter fw -> y ∈ Counter fw ->
            by_count Pfw x y -> ranks_before ws x.1 y.1) as Hrank.
  { intros x y Hx Hy Hxy.
    destruct (Hmem _ Hx) as (HQx & _ & Hnx), (Hmem _ Hy) as (HQy & _ & Hny).
    destruct Hxy as [Hlt|[Heq Hfirst]].
    - left. lia.
    - right. split; [lia|]. by apply (first_index_filter Q _ _ ws). }
  assert (forall x, x ∈ take 10 (sorted_desc (Counter fw)) -> x ∈ Counter fw) as Htake.
  { intros x Hx%elem_of_take_elem. by rewrite Hperm in Hx. }
  assert (StronglySorted (ranks_before ws) ks) as Hranked.
  { apply (StronglySorted_map_members fst (by_count Pfw)).
    - intros x y Hx Hy. apply Hrank; by apply Htake.
    - by apply StronglySorted_take. }
  split; [|split; [|split; [|split]]].
  - apply (StronglySorted_NoDup (ranks_before ws)); [|done].
    intros x [?|[_ ?]]; lia.
  - unfold ks. rewrite length_fmap, length_take. lia.
  - intros k (x & -> & Hx%Htake)%list_elem_of_fmap.
    destruct (Hmem _ Hx) as ([Hstop Hlen] & Hws & _). repeat split; [lia | done..].
  - done.
  - intros w Hw [Hstop Hlen] Hout.
    assert (w ∈ (Counter fw).*1) as (x & -> & Hx)%list_elem_of_fmap.
    { apply Hkeys, list_elem_of_filter. split; [split; [done | lia] | done]. }
    rewrite <- Hperm, <- (take_drop 10 (sorted_desc (Counter fw))) in Hx.
    apply elem_of_app in Hx as [Hx|Hx].
    { exfalso. apply Hout, list_elem_of_fmap. by exists x. }
    split.
    + unfold ks. rewrite length_fmap, length_take.
      assert (10 < length (sorted_desc (Counter fw))); [|lia].
      destruct (decide (10 < length (sorted_desc (Counter fw)))) as [|Hle]; [done|].
      rewrite drop_ge in Hx by lia. by apply elem_of_nil in Hx.
    + intros k (y & -> & Hy)%list_elem_of_fmap.
      apply Hrank; [by apply Htake | |].
      * rewrite <- Hperm, <- (take_drop 10 (sorted_desc (Counter fw))).
        apply elem_of_app. by right.
      * rewrite <- (take_drop 10 (sorted_desc (Counter fw))) in Hs.
        by apply (StronglySorted_app_1_elem_of _ _ _ _ _ Hs).
Qed.

End KeywordsRanked.

(** ** Sentiment: the thresholds *)

Section SentimentThresholds.

(** A score at or above [0.05] is not at or below [-0.05]: the two tests
    of the source never both hold, so the order of the branches does not
    matter. *)
Lemma thresholds_exclusive (c : float) :
  (0.05 <=? c)%float = true -> (c <=? -0.05)%float = false.
Proof.
  rewrite !leb_spec.
  replace (Prim2SF 0.05)
    with (S754_finite false 7205759403792794%positive (-57)%Z)
    by (vm_compute; reflexivity).
  replace (Prim2SF (-0.05))
    with (S754_finite true 7205759403792794%positive (-57)%Z)
    by (vm_compute; reflexivity).
  unfold SFleb, SFcompare. by destruct (Prim2SF c) as [s| [|] | |[|] m e].
Qed.

End SentimentThresholds.

(** C5: the overall label is decided by the compound score alone, through
    the two thresholds: positive exactly from [0.05] up, negative exactly from
    [-0.05] down, neutral otherwise; so [0.05] is positive, [-0.05] negative
    and [0.0] neutral. *)
Theorem analyze_sentiment_thresholds (polarity_scores : str -> Vader.scores) :
  (forall text,
     let r := analyze_sentiment polarity_scores text in
     let c := Vader.compound (polarity_scores text) in
     compound r = c
     /\ (overall r = positive_label <-> (0.05 <=? c)%float = true)
     /\ (overall r = negative_label <-> (c <=? -0.05)%float = true)
     /\ (overall r = neutral_label <->
          (0.05 <=? c)%float = false /\ (c <=? -0.05)%float = false))
  /\ (forall text text',
        Vader.compound (polarity_scores text) = Vader.compound (polarity_scores text') ->
        overall (analyze_sentiment polarity_scores text)
        = overall (analyze_sentiment polarity_scores text'))
  /\ overall_of 0.05 = positive_label
  /\ overall_of (-0.05) = negative_label
  /\ overall_of 0.0 = neutral_label.
Proof.
  split; [|split; [|vm_compute; by repeat split]].
  - intros text r c. unfold r, analyze_sentiment, overall_of.
    cbn [overall compound]. fold c. split; [done|].
    pose proof (thresholds_exclusive c) as Hex.
    destruct (0.05 <=? c)%float eqn:Hpos.
    + rewrite Hex by done. intuition congruence.
    + destruct (c <=? -0.05)%float eqn:Hneg; intuition congruence.
  - intros text text' Hc. unfold analyze_sentiment. cbn [overall]. by rewrite Hc.
Qed.

(** ** The pipeline: sample runs *)

Example url_run :
  fst (summarize_video (sample_env (Ok [{| text := py "Hello" |}; {| text := py "world." |}])
                          (Ok []) (Ok (py " # Summary ")))
         {| url := Some (py "https://example.com/watch?v=AAAAAAAAAAA");
            format := py "markdown"; length_ := py "short"; language := py "english";
            include_sentiment := true |} empty_world)
  = Ok {| id := py "0b1f8c1e-5a7d-4c59-9d0e-3f2a6b7c8d9e";
          summary := py "# Summary";
          metadata := video_metadata (py "A talk") (py "A speaker") 60 1
                        (py "https://i.ytimg.com/vi/x/default.jpg") None;
          transcript := py "Hello world.";
          sentiment := Some {| overall := neutral_label; positive := 0; negative := 0;
                               neutral := 1; compound := 0 |}%float;
          keywords := Some [py "hello"; py "world"];
          timestamp := py "2024-05-01T12:00:00" |}.
Proof. vm_compute. reflexivity. Qed.

(** ** State and exceptions: how runs decompose *)

Section Runs.

Lemma bind_Ok {A B} (m : M A) (k : A -> M B) w b w' :
  (m ≫= k) w = (Ok b, w') -> exists a w1, m w = (Ok a, w1) /\ k a w1 = (Ok b, w').
Proof.
  unfold mbind, M_bind. destruct (m w) as [[a|e] w1]; [|done]. by exists a, w1.
Qed.

Lemma bind_Raise {A B} (m : M A) (k : A -> M B) w e w' :
  m w = (Raise e, w') -> (m ≫= k) w = (Raise e, w').
Proof. unfold mbind, M_bind. by intros ->. Qed.

Lemma bind_run {A B} (m : M A) (k : A -> M B) w a w1 :
  m w = (Ok a, w1) -> (m ≫= k) w = k a w1.
Proof. unfold mbind, M_bind. by intros ->. Qed.

Lemma try_except_Ok {A} (m : M A) (h : exn -> M A) w a w' :
  try_except m h w = (Ok a, w') ->
  m w = (Ok a, w') \/ exists e w1, m w = (Raise e, w1) /\ h e w1 = (Ok a, w').
Proof.
  unfold try_except. destruct (m w) as [[a'|e] w1]; [by left|].
  right. by exists e, w1.
Qed.

(** A handler that raises again lets only the body's results through. *)
Lemma try_reraise_Ok {A} (m : M A) (h : exn -> exn) w a w' :
  try_except m (fun e => raise (h e)) w = (Ok a, w') -> m w = (Ok a, w').
Proof. intros [?|(e & w1 & _ & ?)]%try_except_Ok; done. Qed.

Lemma try_reraise_result {A} (m : M A) (h : exn -> exn) w :
  (exists a, (try_except m (fun e => raise (h e)) w).1 = Ok a)
  \/ (exists e, (try_except m (fun e => raise (h e)) w).1 = Raise (h e)).
Proof.
  unfold try_except. destruct (m w) as [[a|e] w1]; [left; by exists a|].
  right. by exists e.
Qed.

End Runs.

(** ** What a computation leaves alone *)

Section Frame.

Context (I : relation World) `{!PreOrder I}.

Lemma keeps_ret {A} (a : A) : keeps I (mret a).
Proof. intros w. simpl. reflexivity. Qed.

Lemma keeps_raise {A} e : keeps I (@raise A e).
Proof. intros w. simpl. reflexivity. Qed.

Lemma keeps_ask {A} (f : World -> A) : keeps I (ask f).
Proof. intros w. simpl. reflexivity. Qed.

Lemma keeps_lift {A} (r : result A) : keeps I (lift r).
Proof. intros w. simpl. reflexivity. Qed.

Lemma keeps_bind {A B} (m : M A) (k : A -> M B) :
  keeps I m -> (forall a, keeps I (k a)) -> keeps I (m ≫= k).
Proof.
  intros Hm Hk w. unfold mbind, M_bind. specialize (Hm w).
  destruct (m w) as [[a|e] w1]; simpl in *; [|done].
  etrans; [exact Hm | apply Hk].
Qed.

Lemma keeps_try {A} (m : M A) (h : exn -> M A) :
  keeps I m -> (forall e, keeps I (h e)) -> keeps I (try_except m h).
Proof.
  intros Hm Hh w. unfold try_except. specialize (Hm w).
  destruct (m w) as [[a|e] w1]; simpl in *; [done|].
  etrans; [exact Hm | apply Hh].
Qed.

Lemma keeps_with_world {A} (f : World -> M A) :
  (forall w, keeps I (f w)) -> keeps I (with_world f).
Proof. intros Hf w. apply Hf. Qed.

Lemma keeps_call {A} ev (answer : World -> result A) :
  keeps I (log ev) -> keeps I (call ev answer).
Proof.
  intros Hlog. apply keeps_bind; [done..|]. intros _.
  apply keeps_with_world. intros w. by apply keeps_lift.
Qed.

End Frame.

#[global] Instance same_storage_preorder : PreOrder same_storage.
Proof. split; [done|]. intros w1 w2 w3. unfold same_storage. congruence. Qed.

#[global] Instance same_fallback_calls_preorder : PreOrder same_fallback_calls.
Proof. split; [done|]. intros w1 w2 w3. unfold same_fallback_calls. congruence. Qed.

Lemma fallback_calls_snoc t ev :
  fallback_calls (t ++ [ev])
  = (fallback_calls t + (if is_fallback_call ev then 1 else 0))%nat.
Proof.
  unfold fallback_calls. rewrite List.filter_app, length_app. simpl.
  by destruct (is_fallback_call ev).
Qed.

Lemma log_keeps_storage ev : keeps same_storage (log ev).
Proof. done. Qed.

Lemma set_files_keeps_storage f : keeps same_storage (set_files f).
Proof. done. Qed.

Lemma log_keeps_fallback_calls ev :
  is_fallback_call ev = false -> keeps same_fallback_calls (log ev).
Proof.
  intros Hev w. unfold same_fallback_calls. simpl.
  rewrite fallback_calls_snoc, Hev. lia.
Qed.

Lemma set_files_keeps_fallback_calls f : keeps same_fallback_calls (set_files f).
Proof. done. Qed.

(** Splits a [keeps] goal along the structure of the computation. *)
Ltac keeps_step :=
  lazymatch goal with
  | |- keeps _ (mret _) => apply keeps_ret; exact _
  | |- keeps _ (raise _) => apply keeps_raise; exact _
  | |- keeps _ (ask _) => apply keeps_ask; exact _
  | |- keeps _ (lift _) => apply keeps_lift; exact _
  | |- keeps same_storage (log _) => apply log_keeps_storage
  | |- keeps same_storage (set_files _) => apply set_files_keeps_storage
  | |- keeps same_fallback_calls (log _) =>
      apply log_keeps_fallback_calls; reflexivity
  | |- keeps same_fallback_calls (set_files _) =>
      apply set_files_keeps_fallback_calls
  | |- keeps _ (call _ _) => apply keeps_call; [exact _ |]
  | |- keeps _ (_ ≫= _) => apply keeps_bind; [exact _ | | intros ?]
  | |- keeps _ (try_except _ _) => apply keeps_try; [exact _ | | intros ?]
  | |- keeps _ (with_world _) => apply keeps_with_world; intros ?
  | |- keeps _ (if ?b then _ else _) => destruct b
  | |- keeps _ (match ?x with _ => _ end) => destruct x
  end.

Ltac keeps_steps := repeat keeps_step.

Section BackendFrames.

Variable E : Env.

Lemma os_remove_keeps_storage path : keeps same_storage (os_remove path).
Proof. unfold os_remove. keeps_steps. Qed.

Lemma extract_audio_transcript_keeps_storage path :
  keeps same_storage (extract_audio_transcript E path).
Proof. unfold extract_audio_transcript, os_remove. keeps_steps. Qed.

Lemma extract_youtube_transcript_keeps_storage video_id :
  keeps same_storage (extract_youtube_transcript E video_id).
Proof.
  unfold extract_youtube_transcript. keeps_steps.
  apply extract_audio_transcript_keeps_storage.
Qed.

Lemma get_video_metadata_keeps_storage video_id :
  keeps same_storage (get_video_metadata E video_id).
Proof. unfold get_video_metadata. keeps_steps. Qed.

Lemma generate_summary_keeps_storage transcript format length language :
  keeps same_storage (generate_summary E transcript format length language).
Proof. unfold generate_summary. keeps_steps. Qed.

End BackendFrames.

(** ** The audio fallback *)

Section Fallback.

Variable E : Env.

(** One run of the fallback is one recorded call of it, whatever happens
    inside. *)
Lemma extract_audio_transcript_one_call path w :
  fallback_calls (trace (extract_audio_transcript E path w).2)
  = S (fallback_calls (trace w)).
Proof.
  unfold extract_audio_transcript.
  rewrite (bind_run _ _ w tt (recorded w (call_extract_audio_transcript path))) by done.
  match goal with |- context [try_except ?m ?h] =>
    assert (keeps same_fallback_calls (try_except m h)) as Hkeeps
  end.
  { unfold os_remove. keeps_steps. }
  rewrite (Hkeeps _). simpl. rewrite fallback_calls_snoc. simpl. lia.
Qed.

Lemma extract_audio_transcript_result path w :
  (exists t, (extract_audio_transcript E path w).1 = Ok t)
  \/ (exists e, (extract_audio_transcript E path w).1
               = Raise (HTTPException 400
                          (py "Error extracting transcript: " ++ str_of E e))).
Proof.
  unfold extract_audio_transcript.
  rewrite (bind_run _ _ w tt (recorded w (call_extract_audio_transcript path))) by done.
  apply (try_reraise_result _
           (fun e => HTTPException 400 (py "Error extracting transcript: " ++ str_of E e))).
Qed.

(** When recognition fails after the audio was written, nothing removes
    the temporary file. *)
Lemma recognition_failure_keeps_file path w e :
  let w1 := recorded w (call_extract_audio_transcript path) in
  let w2 := recorded w1 (call_VideoFileClip path) in
  let audio_path := mktemp E w2 (py ".wav") in
  let w3 := recorded (recorded w2 (call_mktemp audio_path))
              (call_write_audiofile audio_path) in
  let w4 := {| files := files w3 ∪ {[audio_path]};
               summary_storage := summary_storage w3; trace := trace w3 |} in
  let w5 := recorded w4 (call_record audio_path) in
  let w6 := recorded w5 (call_recognize_google audio_path) in
  VideoFileClip E w2 path = Ok true ->
  write_audiofile E w3 path audio_path = Ok tt ->
  record E w5 audio_path = Ok tt ->
  recognize_google E w6 audio_path = Raise e ->
  extract_audio_transcript E path w
  = (Raise (HTTPException 400 (py "Error extracting transcript: " ++ str_of E e)), w6)
  /\ audio_path ∈ files w6.
Proof.
  intros w1 w2 audio_path w3 w4 w5 w6 Hclip Hwrite Hrecord Hspeech. split.
  - subst w1 w2 audio_path w3 w4 w5 w6. unfold recorded in *.
    cbn [files summary_storage trace] in *.
    unfold extract_audio_transcript, try_except, call, with_world, lift, ask.
    unfold mbind, M_bind, log, set_files. cbn [files summary_storage trace].
    rewrite Hclip. cbn [files summary_storage trace].
    rewrite Hwrite. cbn [files summary_storage trace].
    rewrite Hrecord. cbn [files summary_storage trace].
    by rewrite Hspeech.
  - simpl. set_solver.
Qed.

End Fallback.

(** C1, at a video whose speech is not understood: the call fails with the
    transcription error, the temporary audio file was created, no removal was
    attempted, and the file is still there afterwards. *)
Theorem extract_audio_transcript_leaves_file :
  let run := extract_audio_transcript speech_not_understood (py "/videos/talk.mp4")
               empty_world in
  run.1 = Raise (HTTPException 400 (py "Error extracting transcript: "))
  /\ call_write_audiofile (py "/tmp/tmpk3j2.wav") ∈ trace run.2
  /\ (call_remove (py "/tmp/tmpk3j2.wav") ∉ trace run.2)
  /\ py "/tmp/tmpk3j2.wav" ∈ files run.2.
Proof.
  intros run.
  pose proof (recognition_failure_keeps_file speech_not_understood
                (py "/videos/talk.mp4") empty_world (LibraryError [])) as Hleft.
  cbv zeta in Hleft. destruct Hleft as [Hrun Hfile]; [reflexivity..|].
  unfold run. rewrite Hrun. split; [reflexivity|]. split; [|split].
  - cbn [snd trace recorded]. set_solver.
  - cbn [snd trace recorded]. intros Hin.
    repeat (apply elem_of_app in Hin as [Hin|Hin]);
      first [by apply elem_of_nil in Hin | by apply list_elem_of_singleton in Hin].
  - exact Hfile.
Qed.

(** C2: when the caption provider raises, the result of the call is the
    result of the audio fallback, success or failure alike, the fallback ran
    exactly once, and a failure is the fallback's own error. *)
Theorem extract_youtube_transcript_fallback (E : Env) (video_id : str) (w : World) (e : exn) :
  let w1 := recorded w (call_get_transcript video_id) in
  let run := extract_youtube_transcript E video_id w in
  get_transcript E w1 video_id = Raise e ->
  run = extract_audio_transcript E (watch_url video_id) w1
  /\ fallback_calls (trace run.2) = S (fallback_calls (trace w))
  /\ ((exists t, run.1 = Ok t)
      \/ (exists e', run.1 = Raise (HTTPException 400
                                   (py "Error extracting transcript: " ++ str_of E e')))).
Proof.
  intros w1 run Hcaptions.
  assert (run = extract_audio_transcript E (watch_url video_id) w1) as Hrun.
  { unfold run, extract_youtube_transcript, try_except, call, with_world, lift.
    unfold mbind, M_bind, log. fold (recorded w (call_get_transcript video_id)).
    fold w1. by rewrite Hcaptions. }
  split; [done|]. rewrite Hrun. split.
  - rewrite extract_audio_transcript_one_call. unfold w1. simpl.
    rewrite fallback_calls_snoc. simpl. lia.
  - apply extract_audio_transcript_result.
Qed.

Lemma extract_youtube_transcript_fallback_witness :
  let E := sample_env (Raise (LibraryError (py "Subtitles are disabled for this video")))
             (Ok (py "spoken words")) (Ok (py "- a summary")) in
  extract_youtube_transcript E (py "AAAAAAAAAAA") empty_world
  = extract_audio_transcript E (watch_url (py "AAAAAAAAAAA"))
      (recorded empty_world (call_get_transcript (py "AAAAAAAAAAA")))
  /\ fallback_calls (trace (extract_youtube_transcript E (py "AAAAAAAAAAA") empty_world).2)
     = 1%nat.
Proof.
  intros E.
  destruct (extract_youtube_transcript_fallback E (py "AAAAAAAAAAA") empty_world
              (LibraryError (py "Subtitles are disabled for this video")))
    as (Hrun & Hcalls & _); [reflexivity|].
  split; [exact Hrun | exact Hcalls].
Defined.

(** ** The two endpoints *)

Section Endpoints.

Variable E : Env.

Lemma endswith_suffix s p : endswith s p = true <-> exists stem, s = stem ++ p.
Proof.
  unfold endswith. rewrite startswith_prefix. split.
  - intros [r Hr]. exists (reverse r).
    by rewrite <- (reverse_involutive s), Hr, reverse_app, !reverse_involutive.
  - intros [stem ->]. exists (reverse stem). by rewrite reverse_app.
Qed.

(** The guard of the upload endpoint is the test on the extension. *)
Lemma accepted_spec name : accepted E name = true <-> has_accepted_extension E name.
Proof.
  unfold accepted, has_accepted_extension. rewrite existsb_exists. split.
  - intros (suffix & Hin & [stem Hstem]%endswith_suffix).
    exists suffix, stem. split; [by apply list_elem_of_In | done].
  - intros (suffix & stem & Hin & Hstem). exists suffix.
    split; [by apply list_elem_of_In |].
    apply endswith_suffix. by exists stem.
Qed.

Lemma storage_append_run response w :
  storage_append response w = (Ok tt, stored w response).
Proof. reflexivity. Qed.

(** A successful run of the URL endpoint, step by step. *)
Lemma summarize_video_Ok request w r w' :
  summarize_video E request w = (Ok r, w') ->
  exists request_url video_id md w1 w2 w3,
    url request = Some request_url
    /\ extract_video_id request_url = Ok video_id
    /\ get_video_metadata E video_id w = (Ok md, w1)
    /\ extract_youtube_transcript E video_id w1 = (Ok (transcript r), w2)
    /\ generate_summary E (transcript r) (format request) (length_ request)
         (language request) w2 = (Ok (summary r), w3)
    /\ r = {| id := uuid4 E w3; summary := summary r; metadata := md;
              transcript := transcript r;
              sentiment := optional_sentiment E (include_sentiment request) (transcript r);
              keywords := Some (extract_keywords (unicode E) (transcript r));
              timestamp := now E w3 |}
    /\ w' = stored w3 r.
Proof.
  unfold summarize_video. intros Hrun.
  destruct (url request) as [request_url|] eqn:Hurl; [|done].
  destruct request_url as [|c u]; [done|].
  apply try_reraise_Ok in Hrun.
  apply bind_Ok in Hrun as (video_id & w0 & Hid & Hrun).
  apply bind_Ok in Hrun as (md & w1 & Hmd & Hrun).
  apply bind_Ok in Hrun as (t & w2 & Ht & Hrun).
  apply bind_Ok in Hrun as (s & w3 & Hs & Hrun).
  apply bind_Ok in Hrun as (response & w4 & Hresponse & Hrun).
  apply bind_Ok in Hrun as ([] & w5 & Happend & Hrun).
  unfold make_response, ask in Hresponse. rewrite storage_append_run in Happend.
  unfold lift in Hid. cbv [mret M_ret] in Hrun.
  simplify_eq. exists (c :: u), video_id, md, w1, w2, w4. done.
Qed.

(** A successful run of the upload endpoint, step by step. *)
Lemma summarize_uploaded_video_Ok file format length language include w r w' :
  summarize_uploaded_video E file format length language include w = (Ok r, w') ->
  let temp_path := mktemp E w (splitext E (filename file)).2 in
  exists w1 w2,
    accepted E (filename file) = true
    /\ extract_audio_transcript E temp_path (uploaded w temp_path)
       = (Ok (transcript r), w1)
    /\ generate_summary E (transcript r) format length language w1 = (Ok (summary r), w2)
    /\ r = {| id := uuid4 E w2; summary := summary r;
              metadata := file_metadata (filename file) (List.length (content file))
                            (content_type file);
              transcript := transcript r;
              sentiment := optional_sentiment E include (transcript r);
              keywords := Some (extract_keywords (unicode E) (transcript r));
              timestamp := now E w2 |}
    /\ os_remove temp_path (stored w2 r) = (Ok tt, w').
Proof.
  intros Hrun temp_path. unfold summarize_uploaded_video in Hrun.
  destruct (accepted E (filename file)) eqn:Haccepted; [|done].
  cbn [negb] in Hrun. apply try_reraise_Ok in Hrun.
  apply bind_Ok in Hrun as (p & w0 & Hp & Hrun).
  unfold ask in Hp. simplify_eq. fold temp_path in Hrun.
  apply bind_Ok in Hrun as ([] & wa & Ha & Hrun).
  apply bind_Ok in Hrun as ([] & wb & Hb & Hrun).
  apply bind_Ok in Hrun as ([] & wc & Hc & Hrun).
  unfold log in Ha, Hb. unfold set_files in Hc. simplify_eq.
  cbn [files summary_storage trace] in Hrun. rewrite <- app_assoc in Hrun.
  change ([call_mktemp temp_path] ++ [call_open_wb temp_path])
    with [call_mktemp temp_path; call_open_wb temp_path] in Hrun.
  fold (uploaded w0 temp_path) in Hrun.
  apply bind_Ok in Hrun as (t & w1 & Ht & Hrun).
  apply bind_Ok in Hrun as (s & w2 & Hs & Hrun).
  apply bind_Ok in Hrun as (response & w3 & Hresponse & Hrun).
  apply bind_Ok in Hrun as ([] & w4 & Happend & Hrun).
  apply bind_Ok in Hrun as ([] & w5 & Hremove & Hrun).
  unfold make_response, ask in Hresponse. rewrite storage_append_run in Happend.
  cbv [mret M_ret] in Hrun. simplify_eq. exists w1, w3. done.
Qed.

End Endpoints.

(** C7: an upload whose name does not end, once lower-cased, with one of
    the accepted extensions fails with the unsupported-format error and
    leaves the world as it was: nothing is recorded, so no transcription
    was attempted, and no file was written. *)
Theorem summarize_uploaded_video_rejects (E : Env) (file : UploadFile)
    (format length language : str) (include : bool) (w : World) :
  ~ has_accepted_extension E (filename file) ->
  let run := summarize_uploaded_video E file format length language include w in
  run = (Raise (HTTPException 400 (py "Unsupported file format")), w)
  /\ fallback_calls (trace run.2) = fallback_calls (trace w)
  /\ trace run.2 = trace w
  /\ files run.2 = files w.
Proof.
  intros Hext run.
  assert (run = (Raise (HTTPException 400 (py "Unsupported file format")), w)) as ->; [|done].
  unfold run, summarize_uploaded_video.
  destruct (accepted E (filename file)) eqn:Haccepted; [|done].
  by apply accepted_spec in Haccepted.
Qed.

Lemma summarize_uploaded_video_rejects_witness :
  summarize_uploaded_video (sample_env (Ok []) (Ok (py "spoken words")) (Ok (py "- a summary")))
    (sample_file (py "notes.txt")) (py "bullet_points") (py "medium") (py "english")
    false empty_world
  = (Raise (HTTPException 400 (py "Unsupported file format")), empty_world).
Proof.
  apply (summarize_uploaded_video_rejects
           (sample_env (Ok []) (Ok (py "spoken words")) (Ok (py "- a summary")))
           (sample_file (py "notes.txt"))).
  intros Hext%accepted_spec. vm_compute in Hext. discriminate Hext.
Defined.

(** C8, as stated, fails: captions with no fragment give an empty
    transcript, a blank answer of the model gives an empty summary, and the
    run still succeeds with a record holding both. *)
Lemma summarize_video_empty_record :
  exists r w',
    summarize_video (sample_env (Ok []) (Ok []) (Ok (py "  ")))
      (sample_request false) empty_world = (Ok r, w')
    /\ transcript r = [] /\ summary r = [] /\ summary_storage w' = [r].
Proof. eexists _, _. vm_compute. done. Qed.

(** C8, amended: a run of either endpoint that completes without error
    appends exactly one record to the store, the one it returns; its
    transcript is the text acquisition returned and its summary what
    summary generation returned for that transcript, empty or not. *)
Theorem successful_run_one_record (E : Env) (w w' : World) (r : SummaryResponse) :
  (forall request,
     summarize_video E request w = (Ok r, w') ->
     summary_storage w' = summary_storage w ++ [r]
     /\ exists video_id w1 w2 w3,
          extract_youtube_transcript E video_id w1 = (Ok (transcript r), w2)
          /\ generate_summary E (transcript r) (format request) (length_ request)
               (language request) w2 = (Ok (summary r), w3))
  /\ (forall file format length language include,
        summarize_uploaded_video E file format length language include w = (Ok r, w') ->
        summary_storage w' = summary_storage w ++ [r]
        /\ exists temp_path w1 w2 w3,
             extract_audio_transcript E temp_path w1 = (Ok (transcript r), w2)
             /\ generate_summary E (transcript r) format length language w2
                = (Ok (summary r), w3)).
Proof.
  split.
  - intros request
      (request_url & video_id & md & w1 & w2 & w3 & _ & _ & Hmd & Ht & Hs & _ & ->)%summarize_video_Ok.
    split; [|by exists video_id, w1, w2, w3].
    pose proof (get_video_metadata_keeps_storage E video_id w) as H1.
    pose proof (extract_youtube_transcript_keeps_storage E video_id w1) as H2.
    pose proof (generate_summary_keeps_storage E (transcript r) (format request)
                  (length_ request) (language request) w2) as H3.
    rewrite Hmd in H1. rewrite Ht in H2. rewrite Hs in H3.
    unfold same_storage in *. cbn [snd stored summary_storage] in *. congruence.
  - intros file format length language include Hrun.
    apply summarize_uploaded_video_Ok in Hrun. cbv zeta in Hrun.
    destruct Hrun as (w1 & w2 & _ & Ht & Hs & _ & Hremove).
    split; [|by eexists _, _, w1, w2].
    pose proof (extract_audio_transcript_keeps_storage E
                  (mktemp E w (splitext E (filename file)).2)
                  (uploaded w (mktemp E w (splitext E (filename file)).2))) as H1.
    pose proof (generate_summary_keeps_storage E (transcript r) format length language w1) as H2.
    pose proof (os_remove_keeps_storage (mktemp E w (splitext E (filename file)).2)
                  (stored w2 r)) as H3.
    rewrite Ht in H1. rewrite Hs in H2. rewrite Hremove in H3.
    unfold same_storage in *. cbn [snd stored uploaded summary_storage] in *. congruence.
Qed.

Lemma successful_run_one_record_witness :
  exists r w',
    summarize_video (sample_env (Ok [{| text := py "Hello" |}; {| text := py "world." |}])
                       (Ok []) (Ok (py " # Summary ")))
      (sample_request true) empty_world = (Ok r, w')
    /\ summary_storage w' = summary_storage empty_world ++ [r].
Proof.
  set (E := sample_env (Ok [{| text := py "Hello" |}; {| text := py "world." |}])
              (Ok []) (Ok (py " # Summary "))).
  assert (exists r w', summarize_video E (sample_request true) empty_world = (Ok r, w'))
    as (r & w' & Hrun) by (eexists _, _; vm_compute; reflexivity).
  exists r, w'. split; [exact Hrun|].
  exact (proj1 (proj1 (successful_run_one_record E empty_world w' r) _ Hrun)).
Defined.

(** C10: on every successful run of either endpoint the record's keywords
    are present (the keywords of the transcript) and its sentiment is
    present exactly when sentiment analysis was asked for. *)
Theorem response_keywords_sentiment (E : Env) (w w' : World) (r : SummaryResponse) :
  (forall request,
     summarize_video E request w = (Ok r, w') ->
     is_Some (keywords r)
     /\ keywords r = Some (extract_keywords (unicode E) (transcript r))
     /\ (is_Some (sentiment r) <-> include_sentiment request = true))
  /\ (forall file format length language include,
        summarize_uploaded_video E file format length language include w = (Ok r, w') ->
        is_Some (keywords r)
        /\ keywords r = Some (extract_keywords (unicode E) (transcript r))
        /\ (is_Some (sentiment r) <-> include = true)).
Proof.
  assert (forall include t, is_Some (optional_sentiment E include t) <-> include = true)
    as Hsentiment.
  { intros [] t; simpl; split; try done. }
  split.
  - intros request
      (request_url & video_id & md & w1 & w2 & w3 & _ & _ & _ & _ & _ & Hr & _)%summarize_video_Ok.
    rewrite Hr. cbn [keywords sentiment transcript]. by rewrite Hsentiment.
  - intros file format length language include Hrun.
    apply summarize_uploaded_video_Ok in Hrun. cbv zeta in Hrun.
    destruct Hrun as (w1 & w2 & _ & _ & _ & Hr & _).
    rewrite Hr. cbn [keywords sentiment transcript]. by rewrite Hsentiment.
Qed.

Lemma response_keywords_sentiment_witness :
  exists r w',
    summarize_uploaded_video
      (sample_env (Ok []) (Ok (py "spoken words here")) (Ok (py " - a summary ")))
      (sample_file (py "Talk.MP4")) (py "narrative") (py "short") (py "english")
      false empty_world = (Ok r, w')
    /\ is_Some (keywords r) /\ ~ is_Some (sentiment r).
Proof.
  set (E := sample_env (Ok []) (Ok (py "spoken words here")) (Ok (py " - a summary "))).
  assert (exists r w',
            summarize_uploaded_video E (sample_file (py "Talk.MP4")) (py "narrative")
              (py "short") (py "english") false empty_world = (Ok r, w'))
    as (r & w' & Hrun) by (eexists _, _; vm_compute; reflexivity).
  exists r, w'. split; [exact Hrun|].
  destruct (proj2 (response_keywords_sentiment E empty_world w' r) _ _ _ _ _ Hrun)
    as (Hk & _ & Hs).
  split; [exact Hk|]. intros Hsome. apply Hs in Hsome. discriminate Hsome.
Defined.

(** ** The store: lookup, deletion, download *)

Section StoreFacts.

Implicit Types (summary_id : str) (storage : list SummaryResponse).

Lemma first_with_id_Some summary_id storage s :
  first_with_id summary_id storage = Some s <->
  exists before after,
    storage = before ++ s :: after /\ id s = summary_id
    /\ Forall (fun x => id x <> summary_id) before.
Proof.
  induction storage as [|x rest IH]; simpl.
  - split; [done|]. intros (before & after & Heq & _). by destruct before.
  - case_bool_decide as Hx.
    + split.
      * intros [= ->]. by exists [], rest.
      * intros (before & after & Heq & Hid & Hbefore).
        destruct before as [|y before]; simplify_eq/=; [done|].
        by apply Forall_cons_1 in Hbefore as [? _].
    + rewrite IH. split.
      * intros (before & after & -> & Hid & Hbefore).
        exists (x :: before), after. by repeat constructor.
      * intros (before & after & Heq & Hid & Hbefore).
        destruct before as [|y before]; simplify_eq/=.
        apply Forall_cons_1 in Hbefore as [_ Hbefore]. by exists before, after.
Qed.

Lemma first_with_id_None summary_id storage :
  first_with_id summary_id storage = None <->
  Forall (fun x => id x <> summary_id) storage.
Proof.
  induction storage as [|x rest IH]; simpl; [done|].
  case_bool_decide as Hx.
  - split; [done|]. by intros [? _]%Forall_cons_1.
  - rewrite IH. split; [by constructor | by intros [_ ?]%Forall_cons_1].
Qed.

Lemma first_with_id_filter_ne summary_id other storage :
  other <> summary_id ->
  first_with_id other (filter (fun s => id s <> summary_id) storage)
  = first_with_id other storage.
Proof.
  intros Hother. induction storage as [|x rest IH]; [done|].
  destruct (decide (id x = summary_id)) as [Hx|Hx].
  - rewrite filter_cons_False by (by intros ?). simpl.
    rewrite bool_decide_eq_false_2 by congruence. done.
  - rewrite filter_cons_True by done. simpl. by rewrite IH.
Qed.

Lemma filter_keeps_all summary_id storage :
  Forall (fun x => id x <> summary_id) storage ->
  filter (fun s => id s <> summary_id) storage = storage.
Proof.
  induction 1 as [|x l Hx _ IH]; [done|]. by rewrite filter_cons_True, IH.
Qed.

Lemma first_with_id_app_fresh summary_id storage s :
  first_with_id summary_id storage = None ->
  first_with_id summary_id (storage ++ [s])
  = if bool_decide (id s = summary_id) then Some s else None.
Proof.
  induction storage as [|x rest IH]; simpl; [done|].
  destruct (bool_decide (id x = summary_id)); [done | exact IH].
Qed.

Lemma first_with_id_app_found summary_id storage s old :
  first_with_id summary_id storage = Some old ->
  first_with_id summary_id (storage ++ [s]) = Some old.
Proof.
  induction storage as [|x rest IH]; simpl; [done|].
  destruct (bool_decide (id x = summary_id)); [done | exact IH].
Qed.

End StoreFacts.

(** X1: Looking a summary up gives the first stored record with that id, fails
    with status 404 exactly when no stored record has it, and never changes
    the world. *)
Theorem get_summary_first_match (summary_id : str) (w : World) :
  (get_summary summary_id w).2 = w
  /\ (forall s, (get_summary summary_id w).1 = Ok s <->
        exists before after,
          summary_storage w = before ++ s :: after /\ id s = summary_id
          /\ Forall (fun x => id x <> summary_id) before)
  /\ ((get_summary summary_id w).1 = Raise (HTTPException 404 (py "Summary not found"))
      <-> Forall (fun x => id x <> summary_id) (summary_storage w))
  /\ (forall e, (get_summary summary_id w).1 = Raise e ->
        e = HTTPException 404 (py "Summary not found")).
Proof.
  unfold get_summary, with_world.
  destruct (first_with_id summary_id (summary_storage w)) as [found|] eqn:Hfind.
  - split; [done|]. split; [|split].
    + intros s. rewrite <- first_with_id_Some, Hfind. simpl.
      split; by intros [= ->].
    + rewrite <- first_with_id_None, Hfind. done.
    + done.
  - split; [done|]. split; [|split].
    + intros s. rewrite <- first_with_id_Some, Hfind. done.
    + rewrite <- first_with_id_None. done.
    + by intros e [= <-].
Qed.

(** X2: Deleting an id always answers with the same message, removes every
    record with that id and no other, keeps the order of the rest, and
    deleting twice is deleting once; a lookup of the id then fails with
    status 404. *)
Theorem delete_summary_then_lookup (summary_id : str) (w : World) :
  let w' := (delete_summary summary_id w).2 in
  (delete_summary summary_id w).1 = Ok {| message := py "Summary deleted" |}
  /\ summary_storage w' = filter (fun s => id s <> summary_id) (summary_storage w)
  /\ get_summary summary_id w' = (Raise (HTTPException 404 (py "Summary not found")), w')
  /\ delete_summary summary_id w' = delete_summary summary_id w
  /\ (Forall (fun s => id s <> summary_id) (summary_storage w) -> w' = w)
  /\ files w' = files w.
Proof.
  intros w'. split; [done|]. split; [done|].
  assert (Forall (fun x => id x <> summary_id) (summary_storage w')) as Hgone.
  { apply Forall_forall. intros s. unfold w'. simpl.
    by intros [? _]%list_elem_of_filter. }
  split; [|split; [|split]].
  - unfold get_summary, with_world.
    by apply first_with_id_None in Hgone as ->.
  - unfold delete_summary. simpl.
    rewrite list_filter_filter. f_equal. f_equal.
    apply list_filter_iff. tauto.
  - intros Hnone. unfold w', delete_summary. simpl. destruct w as [fs st tr].
    simpl in *. f_equal. by apply filter_keeps_all.
  - done.
Qed.

(** X3: Deleting one id leaves the lookup of every other id as it was. *)
Theorem delete_summary_other_ids (summary_id other : str) (w : World) :
  other <> summary_id ->
  (get_summary other (delete_summary summary_id w).2).1 = (get_summary other w).1.
Proof.
  intros Hother. unfold get_summary, with_world, delete_summary. simpl.
  rewrite first_with_id_filter_ne by done.
  by destruct (first_with_id other (summary_storage w)).
Qed.

Lemma delete_summary_other_ids_witness :
  (get_summary (py "second") (delete_summary (py "first") sample_store).2).1
  = Ok (sample_record (py "second")).
Proof.
  rewrite (delete_summary_other_ids (py "first") (py "second") sample_store).
  - reflexivity.
  - discriminate.
Defined.

(** ** How failures surface *)

Section Failures.



Lemma try_reraise_run {A} (m : M A) (h : exn -> exn) w e0 w' :
  m w = (Raise e0, w') -> try_except m (fun e => raise (h e)) w = (Raise (h e0), w').
Proof. unfold try_except. by intros ->. Qed.

End Failures.

Section UrlEndpoint.

Variable E : Env.

Lemma summarize_video_storage request w r w' :
  summarize_video E request w = (Ok r, w') ->
  summary_storage w' = summary_storage w ++ [r].
Proof.
  intros (request_url & video_id & md & w1 & w2 & w3 & _ & _ & Hmd & Ht & Hs & _ & ->)%summarize_video_Ok.
  pose proof (get_video_metadata_keeps_storage E video_id w) as H1.
  pose proof (extract_youtube_transcript_keeps_storage E video_id w1) as H2.
  pose proof (generate_summary_keeps_storage E (transcript r) (format request)
                (length_ request) (language request) w2) as H3.
  rewrite Hmd in H1. rewrite Ht in H2. rewrite Hs in H3.
  unfold same_storage in *. cbn [snd stored summary_storage] in *. congruence.
Qed.


End UrlEndpoint.

(** X4: A summary that was just stored can be looked up: after a successful
    run of the URL endpoint every stored record is listed with the new one
    last, and the lookup of the new id gives the new record when no older
    record has that id, the older record otherwise. *)
Theorem summarize_video_then_get_summary (E : Env) (request : SummaryRequest)
    (w w' : World) (r : SummaryResponse) :
  summarize_video E request w = (Ok r, w') ->
  get_all_summaries w' = (Ok (summary_storage w ++ [r]), w')
  /\ (Forall (fun x => id x <> id r) (summary_storage w) ->
      get_summary (id r) w' = (Ok r, w'))
  /\ (forall old, first_with_id (id r) (summary_storage w) = Some old ->
        get_summary (id r) w' = (Ok old, w')).
Proof.
  intros Hstore%summarize_video_storage.
  unfold get_all_summaries, get_summary, ask, with_world. rewrite Hstore.
  split; [done|]. split.
  - intros Hfresh%first_with_id_None.
    rewrite (first_with_id_app_fresh _ _ _ Hfresh).
    by rewrite bool_decide_eq_true_2.
  - intros old Hold. by rewrite (first_with_id_app_found _ _ _ _ Hold).
Qed.

Lemma summarize_video_then_get_summary_witness :
  exists r w',
    summarize_video (sample_env (Ok [{| text := py "Hello" |}; {| text := py "world." |}])
                       (Ok []) (Ok (py " # Summary ")))
      (sample_request false) sample_store = (Ok r, w')
    /\ get_summary (id r) w' = (Ok r, w').
Proof.
  set (E := sample_env (Ok [{| text := py "Hello" |}; {| text := py "world." |}])
              (Ok []) (Ok (py " # Summary "))).
  assert (exists r w', summarize_video E (sample_request false) sample_store = (Ok r, w')
                       /\ Forall (fun x => id x <> id r) (summary_storage sample_store))
    as (r & w' & Hrun & Hfresh).
  { eexists _, _. split; [vm_compute; reflexivity|].
    repeat constructor; discriminate. }
  exists r, w'. split; [exact Hrun|].
  exact (proj1 (proj2 (summarize_video_then_get_summary E _ _ _ _ Hrun)) Hfresh).
Defined.

(** X5: The URL endpoint rejects before any call: without a URL (absent or
    empty) the status is 400, with a URL that holds no identifier token the
    status is 500 and the detail is the text of the [ValueError]; in both
    cases the world is as it was. *)
Theorem summarize_video_rejects (E : Env) (request : SummaryRequest) (w : World) :
  ((url request = None \/ url request = Some []) ->
   summarize_video E request w = (Raise (HTTPException 400 (py "URL is required")), w))
  /\ (forall request_url,
        url request = Some request_url -> request_url <> [] ->
        ~ contains_token request_url ->
        summarize_video E request w
        = (Raise (HTTPException 500 (py "Invalid YouTube URL")), w)).
Proof.
  unfold summarize_video. split.
  - by intros [-> | ->].
  - intros request_url -> Hne Hno. destruct request_url as [|c u]; [done|].
    apply search_None in Hno.
    apply (try_reraise_run _ (fun e => HTTPException 500 (str_of E e)) w
             (ValueError (py "Invalid YouTube URL"))).
    apply bind_Raise. unfold lift, extract_video_id. by rewrite Hno.
Qed.

Lemma summarize_video_rejects_witness :
  summarize_video speech_not_understood
    {| url := Some (py "https://example.com/video"); format := py "markdown";
       length_ := py "short"; language := py "english"; include_sentiment := false |}
    empty_world
  = (Raise (HTTPException 500 (py "Invalid YouTube URL")), empty_world).
Proof.
  apply (proj2 (summarize_video_rejects speech_not_understood _ empty_world)
           (py "https://example.com/video")).
  - reflexivity.
  - discriminate.
  - apply search_None. vm_compute. reflexivity.
Defined.



(** ** Temporary files *)

Section TemporaryFiles.

Variable E : Env.

Lemma os_remove_Ok path w w' :
  os_remove path w = (Ok tt, w') ->
  path ∈ files w
  /\ w' = {| files := files w ∖ {[path]}; summary_storage := summary_storage w;
             trace := trace w ++ [call_remove path] |}.
Proof.
  unfold os_remove, with_world, set_files, raise, log. cbv [mbind M_bind].
  cbn [files summary_storage trace].
  case_bool_decide as Hin; [|done]. by intros [= <-].
Qed.

(** Unfolds a run of the fallback into the cases of its collaborators'
    answers. *)
Ltac fallback_cases Hrun :=
  revert Hrun;
  unfold extract_audio_transcript, os_remove, recorded;
  unfold try_except, call, with_world, lift, ask, set_files, raise, log;
  cbv [mbind M_bind mret M_ret]; cbn [files summary_storage trace];
  intros Hrun;
  repeat (case_match; simplify_eq; cbn [files summary_storage trace] in *).

(** A successful run of the fallback: what it did, in order, and what is
    left of it. *)
Lemma extract_audio_transcript_Ok path w t w' :
  extract_audio_transcript E path w = (Ok t, w') ->
  let w2 := recorded (recorded w (call_extract_audio_transcript path))
              (call_VideoFileClip path) in
  let audio_path := mktemp E w2 (py ".wav") in
  files w' = files w ∖ {[audio_path]}
  /\ summary_storage w' = summary_storage w
  /\ trace w' = trace w ++ [call_extract_audio_transcript path; call_VideoFileClip path;
                            call_mktemp audio_path; call_write_audiofile audio_path;
                            call_record audio_path; call_recognize_google audio_path;
                            call_remove audio_path; call_close path].
Proof.
  intros Hrun w2 audio_path. subst w2 audio_path. fallback_cases Hrun.
  split; [|split; [done|]].
  - apply set_eq. intros x. rewrite !elem_of_difference, elem_of_union. tauto.
  - by rewrite <- !app_assoc.
Qed.

(** A failed run of the fallback removes nothing. *)
Lemma extract_audio_transcript_Raise path w e w' :
  extract_audio_transcript E path w = (Raise e, w') ->
  files w ⊆ files w' /\ summary_storage w' = summary_storage w.
Proof.
  intros Hrun. fallback_cases Hrun.
  all: split; [|done].
  all: intros x Hx; rewrite ?elem_of_union; auto.
Qed.

End TemporaryFiles.

(** X9: When the fallback succeeds it has cleaned up after itself: the audio
    file it wrote was removed in the same call, every other file is as it
    was, and the store is untouched. *)
Theorem extract_audio_transcript_success_cleans (E : Env) (path : str)
    (w w' : World) (t : str) :
  extract_audio_transcript E path w = (Ok t, w') ->
  exists audio_path before after,
    trace w' = trace w ++ before ++ [call_write_audiofile audio_path] ++ after
    /\ call_remove audio_path ∈ after
    /\ (audio_path ∉ files w')
    /\ (forall p, p <> audio_path -> p ∈ files w' <-> p ∈ files w)
    /\ summary_storage w' = summary_storage w.
Proof.
  intros Hrun. apply extract_audio_transcript_Ok in Hrun. cbv zeta in Hrun.
  destruct Hrun as (Hfiles & Hstore & Htrace).
  eexists _, [_; _; _], [_; _; _; _]. split; [exact Htrace|].
  split; [|split; [|split; [|done]]].
  - do 2 right. left.
  - rewrite Hfiles, elem_of_difference, elem_of_singleton. tauto.
  - intros p Hp. rewrite Hfiles, elem_of_difference, elem_of_singleton. tauto.
Qed.

Lemma extract_audio_transcript_success_cleans_witness :
  exists t w',
    extract_audio_transcript
      (sample_env (Ok []) (Ok (py "spoken words")) (Ok (py "- a summary")))
      (py "/videos/talk.mp4") empty_world = (Ok t, w')
    /\ summary_storage w' = summary_storage empty_world.
Proof.
  set (E := sample_env (Ok []) (Ok (py "spoken words")) (Ok (py "- a summary"))).
  assert (exists t w',
            extract_audio_transcript E (py "/videos/talk.mp4") empty_world = (Ok t, w'))
    as (t & w' & Hrun) by (eexists _, _; vm_compute; reflexivity).
  exists t, w'. split; [exact Hrun|].
  destruct (extract_audio_transcript_success_cleans E _ _ _ _ Hrun)
    as (audio_path & before & after & _ & _ & _ & _ & Hstore).
  exact Hstore.
Defined.

(** X10: A successful upload leaves no temporary copy behind: the copy of the
    upload was removed after the record was stored, and the record's
    metadata are the upload's name, size and content type. *)
Theorem summarize_uploaded_video_removes_copy (E : Env) (file : UploadFile)
    (format length language : str) (include : bool) (w w' : World)
    (r : SummaryResponse) :
  summarize_uploaded_video E file format length language include w = (Ok r, w') ->
  let temp_path := mktemp E w (splitext E (filename file)).2 in
  (temp_path ∉ files w')
  /\ last (trace w') = Some (call_remove temp_path)
  /\ metadata r = file_metadata (filename file) (List.length (content file))
                    (content_type file).
Proof.
  intros Hrun temp_path. apply summarize_uploaded_video_Ok in Hrun.
  cbv zeta in Hrun. fold temp_path in Hrun.
  destruct Hrun as (w1 & w2 & _ & _ & _ & Hr & [_ ->]%os_remove_Ok).
  cbn [files trace]. split; [|split].
  - rewrite elem_of_difference, elem_of_singleton. tauto.
  - by rewrite last_snoc.
  - by rewrite Hr.
Qed.

Lemma summarize_uploaded_video_removes_copy_witness :
  exists r w',
    summarize_uploaded_video
      (sample_env (Ok []) (Ok (py "spoken words here")) (Ok (py " - a summary ")))
      (sample_file (py "Talk.MP4")) (py "narrative") (py "short") (py "english")
      true empty_world = (Ok r, w')
    /\ last (trace w') = Some (call_remove (py "/tmp/tmpk3j2.MP4")).
Proof.
  set (E := sample_env (Ok []) (Ok (py "spoken words here")) (Ok (py " - a summary "))).
  assert (exists r w',
            summarize_uploaded_video E (sample_file (py "Talk.MP4")) (py "narrative")
              (py "short") (py "english") true empty_world = (Ok r, w'))
    as (r & w' & Hrun) by (eexists _, _; vm_compute; reflexivity).
  exists r, w'. split; [exact Hrun|].
  exact (proj1 (proj2 (summarize_uploaded_video_removes_copy E _ _ _ _ _ _ _ _ Hrun))).
Defined.

(** X11: When the transcription of an accepted upload fails, the endpoint
    answers with status 500 and the text of the transcription error, stores
    nothing, and the temporary copy of the upload stays on disk: the
    removal is on the success path only. *)
Theorem summarize_uploaded_video_keeps_copy (E : Env) (file : UploadFile)
    (format length language : str) (include : bool) (w w1 : World) (e : exn) :
  let temp_path := mktemp E w (splitext E (filename file)).2 in
  has_accepted_extension E (filename file) ->
  extract_audio_transcript E temp_path (uploaded w temp_path) = (Raise e, w1) ->
  summarize_uploaded_video E file format length language include w
  = (Raise (HTTPException 500 (str_of E e)), w1)
  /\ temp_path ∈ files w1
  /\ summary_storage w1 = summary_storage w.
Proof.
  intros temp_path Haccepted%accepted_spec Hfail. split.
  - unfold summarize_uploaded_video. rewrite Haccepted. cbn [negb].
    apply (try_reraise_run _ (fun e => HTTPException 500 (str_of E e))).
    rewrite (bind_run _ _ w temp_path w) by done.
    rewrite (bind_run _ _ w tt (recorded w (call_mktemp temp_path))) by done.
    rewrite (bind_run _ _ _ tt
               (recorded (recorded w (call_mktemp temp_path)) (call_open_wb temp_path)))
      by done.
    rewrite (bind_run _ _ _ tt (uploaded w temp_path)).
    + by apply bind_Raise.
    + unfold set_files, uploaded, recorded. cbn [files summary_storage trace].
      by rewrite <- app_assoc.
  - apply extract_audio_transcript_Raise in Hfail as [Hfiles Hstore].
    split; [|exact Hstore]. apply Hfiles. unfold uploaded. cbn [files].
    rewrite elem_of_union, elem_of_singleton. by right.
Qed.

Lemma summarize_uploaded_video_keeps_copy_witness :
  summarize_uploaded_video speech_not_understood (sample_file (py "talk.mp4"))
    (py "narrative") (py "short") (py "english") false empty_world
  = (Raise (HTTPException 500 (py "Error extracting transcript: ")),
     (extract_audio_transcript speech_not_understood (py "/tmp/tmpk3j2.mp4")
        (uploaded empty_world (py "/tmp/tmpk3j2.mp4"))).2).
Proof.
  refine (proj1 (summarize_uploaded_video_keeps_copy speech_not_understood
                   (sample_file (py "talk.mp4")) (py "narrative") (py "short")
                   (py "english") false empty_world _
                   (HTTPException 400 (py "Error extracting transcript: ")) _ _)).
  - apply accepted_spec. reflexivity.
  - vm_compute. reflexivity.
Defined.

(** ** From an identifier back to its URL *)

(** X13: The URL the backend builds from an identifier, for the metadata and
    for the audio fallback, leads back to that identifier. *)
Theorem extract_video_id_watch_url (video_id : str) :
  token video_id -> extract_video_id (watch_url video_id) = Ok video_id.
Proof.
  intros Ht. unfold extract_video_id.
  assert (search (watch_url video_id) = Some video_id) as ->; [|done].
  apply search_Some. exists (py "https://www.youtube.com/watch?"). split.
  - rewrite <- (app_nil_r video_id) at 1.
    apply (token_at_app (py "https://www.youtube.com/watch?") (py "v=") video_id []);
      [by left | done].
  - apply no_match_before_leftmost. destruct Ht as [Hlen _].
    do 12 (destruct video_id as [|? video_id]; [done|]).
    destruct video_id; [|done]. vm_compute. reflexivity.
Qed.

Lemma extract_video_id_watch_url_witness :
  extract_video_id (watch_url (py "dQw4w9WgXcQ")) = Ok (py "dQw4w9WgXcQ").
Proof.
  apply (extract_video_id_watch_url (py "dQw4w9WgXcQ")).
  split; [reflexivity|]. repeat constructor.
Defined.

(** ** The steps of the URL endpoint *)

(** X7: When the metadata cannot be fetched the URL endpoint stops there: the
    only call made is the one to pytube, no transcript is asked for, no
    summary generated, nothing stored, and the client gets status 500 whose
    detail is the text of the 400 error of the metadata step. *)
Theorem summarize_video_metadata_failure (E : Env) (request : SummaryRequest)
    (w : World) (request_url video_id : str) (e : exn) :
  url request = Some request_url ->
  extract_video_id request_url = Ok video_id ->
  YouTube E (recorded w (call_YouTube video_id)) video_id = Raise e ->
  summarize_video E request w
  = (Raise (HTTPException 500
              (http_str E 400 (py "Error fetching metadata: " ++ str_of E e))),
     recorded w (call_YouTube video_id)).
Proof.
  intros Hurl Hid Hyt. unfold summarize_video. rewrite Hurl.
  destruct request_url as [|c u]; [done|].
  apply (try_reraise_run _ (fun e => HTTPException 500 (str_of E e)) w
           (HTTPException 400 (py "Error fetching metadata: " ++ str_of E e))).
  rewrite (bind_run _ _ w video_id w) by (unfold lift; by rewrite Hid).
  apply bind_Raise. unfold get_video_metadata.
  apply (try_reraise_run _
           (fun e => HTTPException 400 (py "Error fetching metadata: " ++ str_of E e))).
  apply bind_Raise. unfold call.
  rewrite (bind_run _ _ w tt (recorded w (call_YouTube video_id))) by done.
  unfold with_world, lift. by rewrite Hyt.
Qed.

(** X8: When the caption provider answers, the transcript is its fragments
    joined by single spaces, the audio fallback is not called and no file is
    touched: the only call recorded is the one to the provider. *)
Theorem extract_youtube_transcript_captions (E : Env) (video_id : str) (w : World)
    (items : list caption) :
  let w1 := recorded w (call_get_transcript video_id) in
  get_transcript E w1 video_id = Ok items ->
  extract_youtube_transcript E video_id w
  = (Ok (str_join (py " ") (map text items)), w1)
  /\ fallback_calls (trace w1) = fallback_calls (trace w)
  /\ files w1 = files w
  /\ List.length (str_join (py " ") (map text items))
     = (list_sum (map (fun item => List.length (text item)) items)
        + (List.length items - 1))%nat.
Proof.
  intros w1 Hcaptions. split; [|split; [|split]].
  - unfold extract_youtube_transcript, try_except, call.
    rewrite (bind_run _ _ w items w1); [done|].
    rewrite (bind_run _ _ w tt w1) by done.
    unfold with_world, lift. by rewrite Hcaptions.
  - unfold w1. simpl. rewrite fallback_calls_snoc. simpl. lia.
  - done.
  - clear. induction items as [|item [|item' rest] IH]; [done | simpl; lia |].
    change (str_join (py " ") (map text (item :: item' :: rest)))
      with (text item ++ py " " ++ str_join (py " ") (map text (item' :: rest))).
    rewrite !length_app, IH. simpl. lia.
Qed.

Lemma extract_youtube_transcript_captions_witness :
  extract_youtube_transcript
    (sample_env (Ok [{| text := py "Hello" |}; {| text := py "world." |}])
       (Ok []) (Ok (py " # Summary ")))
    (py "dQw4w9WgXcQ") empty_world
  = (Ok (py "Hello world."), recorded empty_world (call_get_transcript (py "dQw4w9WgXcQ"))).
Proof.
  exact (proj1 (extract_youtube_transcript_captions
                  (sample_env (Ok [{| text := py "Hello" |}; {| text := py "world." |}])
                     (Ok []) (Ok (py " # Summary ")))
                  (py "dQw4w9WgXcQ") empty_world
                  [{| text := py "Hello" |}; {| text := py "world." |}] eq_refl)).
Defined.

Lemma summarize_video_metadata_failure_witness :
  summarize_video metadata_unavailable (sample_request true) empty_world
  = (Raise (HTTPException 500 (py "Error fetching metadata: dQw4w9WgXcQ is unavailable")),
     recorded empty_world (call_YouTube (py "dQw4w9WgXcQ"))).
Proof.
  apply (summarize_video_metadata_failure metadata_unavailable (sample_request true)
           empty_world (py "https://www.youtube.com/watch?v=dQw4w9WgXcQ")
           (py "dQw4w9WgXcQ") (LibraryError (py "dQw4w9WgXcQ is unavailable"))).
  - reflexivity.
  - vm_compute. reflexivity.
  - reflexivity.
Defined.

(** ** The prompt *)

Section Prompt.

Lemma dict_get_missing d key default :
  key ∉ d.*1 -> dict_get d key default = default.
Proof.
  induction d as [|[k v] d IH]; simpl; [done|].
  rewrite not_elem_of_cons. intros [Hk Hd].
  rewrite bool_decide_eq_false_2 by done. by apply IH.
Qed.

Lemma dict_get_present d key default :
  key ∈ d.*1 -> exists v, (key, v) ∈ d /\ dict_get d key default = v.
Proof.
  induction d as [|[k v] d IH]; simpl; [by intros ?%elem_of_nil|].
  case_bool_decide as Hk.
  - intros _. exists v. split; [subst; left | done].
  - intros [?|Hd]%elem_of_cons; [done|].
    destruct (IH Hd) as (v' & Hin & Hget). exists v'. split; [by right | done].
Qed.

Lemma str_join_elem sep parts x :
  x ∈ parts -> exists pre post, str_join sep parts = pre ++ x ++ post.
Proof.
  induction parts as [|p [|q rest] IH]; [by intros ?%elem_of_nil | |].
  - intros ->%list_elem_of_singleton. exists [], []. by rewrite app_nil_r.
  - change (str_join sep (p :: q :: rest)) with (p ++ sep ++ str_join sep (q :: rest)).
    intros [->|Hx]%elem_of_cons.
    + by exists [], (sep ++ str_join sep (q :: rest)).
    + destruct (IH Hx) as (pre & post & ->).
      exists (p ++ sep ++ pre), post. by rewrite <- !app_assoc.
Qed.

End Prompt.

(** X14: The prompt falls back silently: a format that is none of the three
    known keys gives the prompt of [bullet_points], a length that is none
    of the three known keys gives the prompt of [medium]; a known key gives
    its own instruction line; and the template always holds the
    [{transcript}] placeholder and the language as given. *)
Theorem get_summary_prompt_defaults (format_type length language : str) :
  (format_type ∉ [py "bullet_points"; py "narrative"; py "markdown"] ->
   get_summary_prompt format_type length language
   = get_summary_prompt (py "bullet_points") length language)
  /\ (length ∉ [py "short"; py "medium"; py "long"] ->
      get_summary_prompt format_type length language
      = get_summary_prompt format_type (py "medium") language)
  /\ (forall instruction, (format_type, instruction) ∈ format_instructions ->
        exists pre post,
          get_summary_prompt format_type length language
          = pre ++ py "    Format: " ++ instruction ++ post)
  /\ (exists pre post,
        get_summary_prompt format_type length language
        = pre ++ py "{transcript}" ++ post)
  /\ (exists pre post,
        get_summary_prompt format_type length language
        = pre ++ py "Please provide the summary in " ++ language ++ post).
Proof.
  split; [|split; [|split; [|split]]].
  - intros Hkey. unfold get_summary_prompt.
    by rewrite (dict_get_missing format_instructions format_type) by exact Hkey.
  - intros Hkey. unfold get_summary_prompt.
    by rewrite (dict_get_missing length_instructions length) by exact Hkey.
  - intros instruction Hin.
    assert (dict_get format_instructions format_type
              (dict_get format_instructions (py "bullet_points") []) = instruction)
      as Hget.
    { unfold format_instructions in *.
      repeat (apply elem_of_cons in Hin as [Hin|Hin]; [by simplify_eq|]).
      by apply elem_of_nil in Hin. }
    unfold get_summary_prompt. rewrite Hget.
    destruct (str_join_elem [10]
                [ []; py "    Please summarize the following video transcript. ";
                  py "    "; py "    Format: " ++ instruction;
                  py "    Length: "
                    ++ dict_get length_instructions length
                         (dict_get length_instructions (py "medium") []);
                  py "    Language: Please provide the summary in " ++ language;
                  py "    ";
                  py "    Focus on the main topics, key insights, and important information covered in the video.";
                  py "    "; py "    Transcript: {transcript}"; py "    ";
                  py "    Summary:"; py "    " ]
                (py "    Format: " ++ instruction)) as (pre & post & ->).
    { do 3 right. left. }
    exists pre, post. by rewrite <- !app_assoc.
  - unfold get_summary_prompt.
    match goal with |- context [str_join ?sep ?parts] =>
      destruct (str_join_elem sep parts (py "    Transcript: {transcript}"))
        as (pre & post & ->)
    end.
    { do 9 right. left. }
    exists (pre ++ py "    Transcript: "), post. by rewrite <- !app_assoc.
  - unfold get_summary_prompt.
    match goal with |- context [str_join ?sep ?parts] =>
      destruct (str_join_elem sep parts
                  (py "    Language: Please provide the summary in " ++ language))
        as (pre & post & ->)
    end.
    { do 5 right. left. }
    exists (pre ++ py "    Language: "), post. by rewrite <- !app_assoc.
Qed.

Lemma get_summary_prompt_defaults_witness :
  get_summary_prompt (py "Markdown") (py "short") (py "english")
  = get_summary_prompt (py "bullet_points") (py "short") (py "english").
Proof.
  apply (proj1 (get_summary_prompt_defaults (py "Markdown") (py "short") (py "english"))).
  rewrite !not_elem_of_cons. repeat split; try discriminate. apply not_elem_of_nil.
Defined.

(** ** Keywords are whole words *)

Section KeywordWords.

Variable U : Unicode.

Lemma letters_all s : Forall (fun c => is_letter c = true) (letters s).
Proof.
  induction s as [|c s IH]; simpl; [constructor|].
  destruct (is_letter c) eqn:Hc; by constructor.
Qed.

Lemma letters_head s :
  (1 <= length (letters s))%nat -> word_at U (head s) = true.
Proof.
  destruct s as [|c s]; simpl; [lia|].
  destruct (is_letter c) eqn:Hc; simpl; [|lia]. intros _. by apply is_letter_word.
Qed.

Lemma last_cons_or {A} (c : A) (l : list A) :
  last (c :: l) = match last l with Some x => Some x | None => Some c end.
Proof. destruct l as [|d l]; [done|]. by rewrite last_cons_cons; destruct (last (d :: l)) eqn:H; [|by apply last_None in H]. Qed.

(** Every token [re.findall] returns is a run of letters of the subject
    with no word character right before or right after it. *)
Lemma findall_from_words n prev skip s w :
  (1 <= n)%nat -> w ∈ findall_from U n prev skip s ->
  exists pre post,
    s = pre ++ w ++ post
    /\ Forall (fun c => is_letter c = true) w
    /\ (n <= length w)%nat
    /\ word_at U (match last pre with Some c => Some c | None => prev end) = false
    /\ word_at U (head post) = false.
Proof.
  intros Hn. revert prev skip.
  induction s as [|c s IH]; intros prev skip Hw.
  - destruct skip; cbn [findall_from] in Hw; [|by apply elem_of_nil in Hw].
    rewrite match_word_run in Hw by done. simpl in Hw.
    replace (n <=? 0)%nat with false in Hw by (symmetry; apply Nat.leb_gt; lia).
    rewrite andb_false_r in Hw. simpl in Hw. by apply elem_of_nil in Hw.
  - assert (forall k, w ∈ findall_from U n (Some c) k s ->
              exists pre post,
                c :: s = pre ++ w ++ post
                /\ Forall (fun c => is_letter c = true) w
                /\ (n <= length w)%nat
                /\ word_at U (match last pre with Some c => Some c | None => prev end)
                   = false
                /\ word_at U (head post) = false) as Hrest.
    { intros k (pre & post & -> & Hl & Hlen & Hb & Ha)%IH.
      exists (c :: pre), post. rewrite last_cons_or.
      repeat split; try done. by destruct (last pre). }
    destruct skip as [|k]; cbn [findall_from] in Hw; [|by apply (Hrest k)].
    rewrite match_word_run in Hw by done.
    destruct (boundary U prev (head (c :: s))) eqn:Hb; cbn [andb] in Hw;
      [|by apply (Hrest 0%nat)].
    destruct (n <=? length (letters (c :: s)))%nat eqn:Hlen; cbn [andb] in Hw;
      [|by apply (Hrest 0%nat)].
    destruct (run_ends U (c :: s)) eqn:Hend; [|by apply (Hrest 0%nat)].
    apply elem_of_cons in Hw as [->|Hw]; [|by eapply Hrest].
    apply Nat.leb_le in Hlen.
    exists [], (drop (length (letters (c :: s))) (c :: s)).
    split; [|split; [|split; [|split]]].
    + rewrite app_nil_l, <- (letters_take (c :: s)) at 1. by rewrite take_drop.
    + apply letters_all.
    + done.
    + simpl. unfold boundary in Hb.
      rewrite (letters_head (c :: s)) in Hb by lia.
      by destruct (word_at U prev).
    + unfold run_ends in Hend. by apply negb_true_iff in Hend.
Qed.

Lemma extract_keywords_tokens text k :
  k ∈ extract_keywords U text -> k ∈ findall U 4 (str_lower U text).
Proof.
  unfold extract_keywords, most_common, filtered_words.
  set (ws := findall U 4 (str_lower U text)).
  set (Q := fun word : str => (word ∉ stop_words) /\ (4 < length word)%nat).
  set (fw := filter Q ws).
  destruct (Counter_inv fw) as (_ & Hkeys & _ & Hsort).
  pose proof (StronglySorted_unmap fst _ _ Hsort) as Hsort'.
  destruct (sorted_desc_sorted _ _ Hsort') as [_ Hperm].
  intros (x & -> & Hx%elem_of_take_elem)%list_elem_of_fmap.
  rewrite Hperm in Hx.
  assert (x.1 ∈ fw) as Hin.
  { apply Hkeys, list_elem_of_fmap. by exists x. }
  by apply list_elem_of_filter in Hin as [_ ?].
Qed.

End KeywordWords.

(** X15: Every keyword is a whole word of the lower-cased text: a run of ASCII
    letters that occurs in it with no word character right before or right
    after, so a fragment of a longer word or of a word with digits or an
    underscore is never a keyword; and when the lower-cased text holds no
    upper-case letter the keyword is made of lower-case letters only. *)
Theorem extract_keywords_whole_words (U : Unicode) (text k : str) :
  k ∈ extract_keywords U text ->
  exists pre post,
    str_lower U text = pre ++ k ++ post
    /\ Forall (fun c => is_letter c = true) k
    /\ word_at U (last pre) = false
    /\ word_at U (head post) = false
    /\ (Forall (fun c => is_upper c = false) (str_lower U text) ->
        Forall (fun c => is_lower c = true) k).
Proof.
  intros Hk%extract_keywords_tokens. unfold findall in Hk.
  apply findall_from_words in Hk as (pre & post & Hs & Hl & _ & Hb & Ha); [|lia].
  exists pre, post. split; [done|]. split; [done|].
  split; [by destruct (last pre) | split; [done|]].
  rewrite Hs, !Forall_app. intros (_ & Hup & _).
  rewrite Forall_forall in *. intros c Hc.
  specialize (Hl c Hc). specialize (Hup c Hc). unfold is_letter in Hl.
  rewrite Hup, orb_false_r in Hl. done.
Qed.

Lemma extract_keywords_whole_words_witness :
  exists pre post,
    ascii_lower (py "Hello2 WORLDS, hello_ there worlds") = pre ++ py "worlds" ++ post
    /\ word_at ascii_tables (last pre) = false
    /\ word_at ascii_tables (head post) = false.
Proof.
  destruct (extract_keywords_whole_words ascii_tables
              (py "Hello2 WORLDS, hello_ there worlds") (py "worlds"))
    as (pre & post & Hs & _ & Hb & Ha & _).
  - vm_compute. left.
  - by exists pre, post.
Defined.

(** ** Downloads *)



(** ** Failures of the upload endpoint *)

Section UploadFailures.

Variable E : Env.



End UploadFailures.


